(** * voldiscount: the curve-filling core of the discount-rate term structure

    A shallow embedding of [calibration/interpolation.py] and of the
    [DEFAULT_PARAMS] mapping of [config/config.py].

    - Python [float] and NumPy [float64] are IEEE 754 binary64 numbers: they
      are modelled by Rocq's primitive floats, so that every rate computed
      here is bit-for-bit the one the program computes.
    - The [days] column holds NumPy [int64] integers: they are modelled by
      [Z], with the wrap-around of their subtraction written out; where the
      source mixes a difference of days with floats, the integer is
      converted first, as NumPy does.
    - Python objects that are shared and may be mutated (the module-level
      dictionary [DEFAULT_PARAMS], the DataFrames handed in by the caller)
      live in an explicit heap; the three operations are written in a small
      state-and-exception monad over that heap.
    - The [print] diagnostics are advisory output and are left out. *)

From Stdlib Require Import ZArith Floats.
From stdpp Require Import base option list sorting gmap strings.

Set Warnings "-inexact-float".
Local Open Scope Z_scope.

(** ** NumPy's 64-bit integers *)

(** A cell of the [days] column is an [int64] scalar.  Subtracting two of
    them is done modulo 2^64 and read back as a signed number (NumPy warns
    about the overflow and goes on). *)
Module Int64.

Definition min_int : Z := - 2 ^ 63.
Definition max_int : Z := 2 ^ 63 - 1.

Definition in_range (z : Z) : Prop := min_int ≤ z ≤ max_int.

(** The signed 64-bit number congruent to [z]. *)
Definition wrap (z : Z) : Z := (z - min_int) mod 2 ^ 64 + min_int.

(** [a - b] on [int64] scalars. *)
Definition sub (a b : Z) : Z := wrap (a - b).

End Int64.

(** ** Floating point as Python uses it *)

Module PyFloat.

(** The conversion of an [int64] scalar to [float64], which NumPy applies
    to an integer operand of a true division or of a product with a float:
    the nearest double, ties to even.  An integer outside the 64-bit range
    is taken as the [int64] it is congruent to, so that the function
    agrees with the program on every difference of two cells, wrapped or
    not.  A division by zero yields an infinity or NaN, as the primitive
    division does. *)
Definition of_int (z : Z) : float :=
  let w := Int64.wrap z in
  if w =? Int64.min_int then (- 0x1p+63)%float
  else if w <? 0 then PrimFloat.opp (PrimFloat.of_uint63 (Uint63.of_Z (- w)))
  else PrimFloat.of_uint63 (Uint63.of_Z w).

(** The builtin [max(a, b)]: the later argument replaces the earlier one
    only when it compares strictly greater. *)
Definition max2 (a b : float) : float :=
  if PrimFloat.ltb a b then b else a.

(** The builtin [min(a, b)]: the later argument replaces the earlier one
    only when it compares strictly smaller. *)
Definition min2 (a b : float) : float :=
  if PrimFloat.ltb b a then b else a.

(** pandas' null marker of a float column. *)
Definition is_nan (x : float) : bool := negb (PrimFloat.eqb x x).

End PyFloat.

(** ** Python values, exceptions, the heap *)

Inductive pyval : Type :=
  | VNone
  | VBool (b : bool)
  | VInt (n : Z)
  | VFloat (x : float)
  | VStr (s : string).

Inductive exn : Type :=
  | TypeError
  | IndexError
  | KeyError
  | InvalidReference.

(** [n < v] for an [int] on the left: [bool] is a subclass of [int], a float
    is compared numerically (a table length converts to a float exactly),
    anything else raises [TypeError]. *)
Definition int_lt (n : Z) (v : pyval) : exn + bool :=
  match v with
  | VBool b => inr (n <? Z.b2z b)
  | VInt m => inr (n <? m)
  | VFloat x => inr (PrimFloat.ltb (PyFloat.of_int n) x)
  | VNone | VStr _ => inl TypeError
  end.

(** ** The term-structure table *)

(** One line of the table, which is also the shape of the [new_row]
    dictionary.  The option-market cells are [None] when null.  A
    [reference_price] or [forward_ratio] of [None] is a key the record does
    not have; inside a table that has the column, such a cell reads as NaN. *)
Record Row : Type := mkRow {
  expiry_date : Z;
  days : Z;
  years : float;
  discount_rate : float;
  method : string;
  put_strike : option float;
  call_strike : option float;
  put_price : option float;
  call_price : option float;
  put_iv : option float;
  call_iv : option float;
  iv_diff : option float;
  reference_price : option float;
  forward_ratio : option float
}.

(** A DataFrame: which of the two optional columns it has, and its lines in
    positional order (the index is positional throughout: every operation
    here uses [iloc] and [ignore_index=True]). *)
Record DataFrame : Type := mkFrame {
  has_reference_price : bool;
  has_forward_ratio : bool;
  rows : list Row
}.

(** A row taken out of a frame with [iloc]: a Series whose index is the
    frame's column list. *)
Record Series : Type := mkSeries {
  in_reference_price : bool;       (* ['reference_price' in s] *)
  in_forward_ratio : bool;         (* ['forward_ratio' in s] *)
  line : Row
}.

Inductive obj : Type :=
  | ODict (d : gmap string pyval)
  | OFrame (f : DataFrame).

Abbreviation loc := nat.

(** Computations that read and extend the heap and may raise. The heap
    survives an exception. *)
Definition M (A : Type) : Type := list obj → (exn + A) * list obj.

Definition ret {A} (a : A) : M A := λ h, (inr a, h).

Definition bind {A B} (c : M A) (k : A → M B) : M B :=
  λ h, match c h with
       | (inl e, h') => (inl e, h')
       | (inr a, h') => k a h'
       end.

Definition lift {A} (r : exn + A) : M A := λ h, (r, h).

Notation "'let*' x ':=' c 'in' k" := (bind c (λ x, k))
  (at level 10, x name, c at level 100, k at level 200).
Notation "c ';;' k" := (bind c (λ _, k))
  (at level 100, k at level 200, right associativity).

Module Py.

Definition alloc (o : obj) : M loc := λ h, (inr (length h), h ++ [o]).

Definition read_dict (l : loc) : M (gmap string pyval) :=
  λ h, match h !! l with
       | Some (ODict d) => (inr d, h)
       | _ => (inl InvalidReference, h)
       end.

Definition read_frame (l : loc) : M DataFrame :=
  λ h, match h !! l with
       | Some (OFrame f) => (inr f, h)
       | _ => (inl InvalidReference, h)
       end.

(** [d.copy()]: a new dictionary object with the same items. *)
Definition dict_copy (l : loc) : M loc :=
  let* d := read_dict l in alloc (ODict d).

(** [d.update(kwargs)]: mutates the object at [l]; the keys of [kwargs]
    win. *)
Definition dict_update (l : loc) (kwargs : gmap string pyval) : M unit :=
  λ h, match h !! l with
       | Some (ODict d) => (inr tt, <[l := ODict (kwargs ∪ d)]> h)
       | _ => (inl InvalidReference, h)
       end.

(** [d[k]] *)
Definition dict_getitem (l : loc) (k : string) : M pyval :=
  let* d := read_dict l in
  lift (match d !! k with Some v => inr v | None => inl KeyError end).

(** A dictionary display: a key written twice keeps its last value. *)
Definition dict_literal (items : list (string * pyval)) : gmap string pyval :=
  foldl (λ m kv, <[kv.1 := kv.2]> m) ∅ items.

End Py.

(** ** The pandas operations the source uses *)

Module Pandas.

(** [len(df)] *)
Definition len (df : DataFrame) : Z := Z.of_nat (length (rows df)).

(** [df.empty] *)
Definition empty (df : DataFrame) : bool :=
  match rows df with [] => true | _ :: _ => false end.

(** [df[df['days'] < d]] and [df[df['days'] > d]]: the lines that pass, in
    their order, under the same columns. *)
Definition select_days_lt (df : DataFrame) (d : Z) : DataFrame :=
  mkFrame (has_reference_price df) (has_forward_ratio df)
          (List.filter (λ r, days r <? d) (rows df)).

Definition select_days_gt (df : DataFrame) (d : Z) : DataFrame :=
  mkFrame (has_reference_price df) (has_forward_ratio df)
          (List.filter (λ r, d <? days r) (rows df)).

(** Sorting by the [days] column.  pandas does not fix which of several
    lines with equal [days] comes first; this model keeps such lines in the
    order of the table, in both directions.  The statements below that say
    which lines are selected only use that the result is sorted and is a
    permutation, so they hold whichever of the tied lines pandas picks. *)
Definition before_in_order (ascending : bool) (a b : Z) : bool :=
  if ascending then a <=? b else b <=? a.

Fixpoint insert_sorted (ascending : bool) (r : Row) (l : list Row) : list Row :=
  match l with
  | [] => [r]
  | x :: l' =>
      if before_in_order ascending (days r) (days x) then r :: l
      else x :: insert_sorted ascending r l'
  end.

Definition sort_rows (ascending : bool) (l : list Row) : list Row :=
  foldr (insert_sorted ascending) [] l.

(** [df.sort_values('days', ascending=...)] *)
Definition sort_values_days (ascending : bool) (df : DataFrame) : DataFrame :=
  mkFrame (has_reference_price df) (has_forward_ratio df)
          (sort_rows ascending (rows df)).

(** [df.iloc[i]]: out of range raises [IndexError]. *)
Definition iloc (df : DataFrame) (i : nat) : exn + Series :=
  match rows df !! i with
  | Some r => inr (mkSeries (has_reference_price df) (has_forward_ratio df) r)
  | None => inl IndexError
  end.

(** [s['days']], [s['discount_rate']] *)
Definition s_days (s : Series) : Z := days (line s).
Definition s_discount_rate (s : Series) : float := discount_rate (line s).

(** [s['reference_price']], [s['forward_ratio']], read only after the
    label was found in the Series: a cell the line has no value for is
    NaN. *)
Definition s_reference_price (s : Series) : float :=
  default PrimFloat.nan (reference_price (line s)).
Definition s_forward_ratio (s : Series) : float :=
  default PrimFloat.nan (forward_ratio (line s)).

(** [pd.DataFrame(records)]: a column for every key some record has. *)
Definition frame_of_records (records : list Row) : DataFrame :=
  mkFrame (existsb (λ r, bool_decide (is_Some (reference_price r))) records)
          (existsb (λ r, bool_decide (is_Some (forward_ratio r))) records)
          records.

Definition DataFrame_ (records : list Row) : M loc :=
  Py.alloc (OFrame (frame_of_records records)).

(** [pd.concat([a, b], ignore_index=True)]: a new frame, the union of the
    columns, the lines of [a] followed by those of [b]; a cell of a column
    one side did not have reads as NaN. *)
Definition concat_frames (a b : DataFrame) : DataFrame :=
  mkFrame (has_reference_price a || has_reference_price b)
          (has_forward_ratio a || has_forward_ratio b)
          (rows a ++ rows b).

Definition concat (a b : loc) : M loc :=
  let* fa := Py.read_frame a in
  let* fb := Py.read_frame b in
  Py.alloc (OFrame (concat_frames fa fb)).

End Pandas.

(** ** config/config.py *)

Module Config.

Definition default_params : gmap string pyval :=
  Py.dict_literal
    [ ("initial_rate", VFloat 0.05);
      ("min_rate", VFloat 0.0);
      ("max_rate", VFloat 0.2);
      ("fallback_growth", VFloat 0.03);
      ("consider_volume", VBool false);
      ("reference_date", VNone);
      ("monthlies", VBool true);
      ("option_type", VStr "call");
      ("q", VFloat 0.0);
      ("max_iterations", VInt 50);
      ("max_strike_diff_pct", VFloat 0.05);
      ("min_option_price", VFloat 0.0);
      ("min_options_per_expiry", VInt 2);
      ("volatility_lower_bound", VFloat 0.001);
      ("volatility_upper_bound", VInt 10);
      ("vol_lb_scalar", VFloat 0.5);
      ("vol_ub_scalar", VFloat 1.5);
      ("min_days", VInt 7);
      ("min_volume", VInt 0);
      ("wait_time", VFloat 0.5);
      ("forward_prices", VNone);
      ("max_strike_diff_pct", VFloat 0.5);
      ("min_option_price", VFloat 0.0);
      ("min_pair_volume", VInt 0);
      ("best_pair_only", VBool false);
      ("close_strike_min_pairs", VInt 3);
      ("debug_threshold", VFloat 0.0);
      ("min_forward_ratio", VFloat 0.5);
      ("max_forward_ratio", VFloat 2.0);
      ("min_price", VFloat 0.0);
      ("debug", VBool true);
      ("save_output", VBool false);
      ("skip_iv_calculation", VBool true);
      ("use_forwards", VBool true);
      ("calibration_method", VStr "direct");
      ("min_int_rate", VFloat (-0.20));
      ("max_int_rate", VFloat 1.00) ].

(** The module-level name [DEFAULT_PARAMS] is bound, once and for all, to
    the first object of the heap. *)
Definition DEFAULT_PARAMS : loc := 0%nat.

(** The heap right after the module was imported. *)
Definition initial_heap : list obj := [ODict default_params].

End Config.

(** ** calibration/interpolation.py *)

Module Interpolation.
Import Pandas.

Local Open Scope float_scope.

Definition min_options_per_expiry : string := "min_options_per_expiry".

(** Lines 39-77 of [interpolate_rate]: the new record, from the two
    neighbours. *)
Definition interpolated_row (before after : Series)
    (expiry_date : Z) (days : Z) (years : float) : Row :=
  let days_range := Int64.sub (s_days after) (s_days before) in
  let days_frac :=
    PyFloat.of_int (Int64.sub days (s_days before)) / PyFloat.of_int days_range in
  let rate :=
    s_discount_rate before
    + days_frac * (s_discount_rate after - s_discount_rate before) in
  let reference_price :=
    if in_reference_price before && in_reference_price after
    then Some (s_reference_price before
               + days_frac * (s_reference_price after - s_reference_price before))
    else None in
  let forward_ratio :=
    if in_forward_ratio before && in_forward_ratio after
    then Some (s_forward_ratio before
               + days_frac * (s_forward_ratio after - s_forward_ratio before))
    else None in
  {| expiry_date := expiry_date;
     days := days;
     years := years;
     discount_rate := rate;
     method := "interpolated";
     put_strike := None;
     call_strike := None;
     put_price := None;
     call_price := None;
     put_iv := None;
     call_iv := None;
     iv_diff := None;
     reference_price := reference_price;
     forward_ratio := forward_ratio |}.

Definition interpolate_rate (df : loc)
    (expiry_date : Z) (days : Z) (years : float) : M loc :=
  let* T := Py.read_frame df in
  let before_df := sort_values_days false (select_days_lt T days) in
  let after_df := sort_values_days true (select_days_gt T days) in
  if empty before_df || empty after_df then ret df
  else
    let* before := lift (iloc before_df 0) in
    let* after := lift (iloc after_df 0) in
    let new_row := interpolated_row before after expiry_date days years in
    let* new_df := DataFrame_ [new_row] in
    concat df new_df.

(** Lines 103-104 and 188-189: the effective parameters of one call. *)
Definition effective_params (kwargs : gmap string pyval) : M loc :=
  let* params := Py.dict_copy Config.DEFAULT_PARAMS in
  Py.dict_update params kwargs ;;
  ret params.

(** Lines 114-161 of [extrapolate_early]. *)
Definition early_row (first second : Series)
    (expiry_date : Z) (days : Z) (years : float) : Row :=
  let days_diff := Int64.sub (s_days second) (s_days first) in
  let rate_diff := s_discount_rate second - s_discount_rate first in
  let daily_rate_change := rate_diff / PyFloat.of_int days_diff in
  let extrapolated_rate :=
    s_discount_rate first
    - PyFloat.of_int (Int64.sub (s_days first) days) * daily_rate_change in
  let extrapolated_rate := PyFloat.max2 0.0 extrapolated_rate in
  let reference_price :=
    if in_reference_price first && in_reference_price second
    then
      let price_diff := s_reference_price second - s_reference_price first in
      let daily_price_change := price_diff / PyFloat.of_int days_diff in
      let reference_price :=
        s_reference_price first
        - PyFloat.of_int (Int64.sub (s_days first) days) * daily_price_change in
      Some (PyFloat.max2 0.0 reference_price)
    else None in
  let forward_ratio :=
    if in_forward_ratio first && in_forward_ratio second
    then
      let ratio_diff := s_forward_ratio second - s_forward_ratio first in
      let daily_ratio_change := ratio_diff / PyFloat.of_int days_diff in
      let forward_ratio :=
        s_forward_ratio first
        - PyFloat.of_int (Int64.sub (s_days first) days) * daily_ratio_change in
      Some (PyFloat.max2 0.0 forward_ratio)
    else None in
  {| expiry_date := expiry_date;
     days := days;
     years := years;
     discount_rate := extrapolated_rate;
     method := "extrapolated";
     put_strike := None;
     call_strike := None;
     put_price := None;
     call_price := None;
     put_iv := None;
     call_iv := None;
     iv_diff := None;
     reference_price := reference_price;
     forward_ratio := forward_ratio |}.

Definition extrapolate_early (df : loc)
    (expiry_date : Z) (days : Z) (years : float)
    (kwargs : gmap string pyval) : M loc :=
  let* params := effective_params kwargs in
  let* T := Py.read_frame df in
  let* threshold := Py.dict_getitem params min_options_per_expiry in
  let* too_few := lift (int_lt (len T) threshold) in
  if too_few then ret df
  else
    let* first := lift (iloc (sort_values_days true T) 0) in
    let* second := lift (iloc (sort_values_days true T) 1) in
    let new_row := early_row first second expiry_date days years in
    let* new_df := DataFrame_ [new_row] in
    concat df new_df.

(** Lines 199-247 of [extrapolate_late]. *)
Definition late_row (last second_last : Series)
    (expiry_date : Z) (days : Z) (years : float) : Row :=
  let days_diff := Int64.sub (s_days last) (s_days second_last) in
  let rate_diff := s_discount_rate last - s_discount_rate second_last in
  let daily_rate_change := rate_diff / PyFloat.of_int days_diff in
  let extrapolated_rate :=
    s_discount_rate last
    + PyFloat.of_int (Int64.sub days (s_days last)) * daily_rate_change in
  let extrapolated_rate :=
    PyFloat.max2 0.0 (PyFloat.min2 0.2 extrapolated_rate) in
  let reference_price :=
    if in_reference_price last && in_reference_price second_last
    then
      let price_diff := s_reference_price last - s_reference_price second_last in
      let daily_price_change := price_diff / PyFloat.of_int days_diff in
      let reference_price :=
        s_reference_price last
        + PyFloat.of_int (Int64.sub days (s_days last)) * daily_price_change in
      Some (PyFloat.max2 (s_reference_price last) reference_price)
    else None in
  let forward_ratio :=
    if in_forward_ratio last && in_forward_ratio second_last
    then
      let ratio_diff := s_forward_ratio last - s_forward_ratio second_last in
      let daily_ratio_change := ratio_diff / PyFloat.of_int days_diff in
      let forward_ratio :=
        s_forward_ratio last
        + PyFloat.of_int (Int64.sub days (s_days last)) * daily_ratio_change in
      Some (PyFloat.max2 (s_forward_ratio last) forward_ratio)
    else None in
  {| expiry_date := expiry_date;
     days := days;
     years := years;
     discount_rate := extrapolated_rate;
     method := "extrapolated";
     put_strike := None;
     call_strike := None;
     put_price := None;
     call_price := None;
     put_iv := None;
     call_iv := None;
     iv_diff := None;
     reference_price := reference_price;
     forward_ratio := forward_ratio |}.

Definition extrapolate_late (df : loc)
    (expiry_date : Z) (days : Z) (years : float)
    (kwargs : gmap string pyval) : M loc :=
  let* params := effective_params kwargs in
  let* T := Py.read_frame df in
  let* threshold := Py.dict_getitem params min_options_per_expiry in
  let* too_few := lift (int_lt (len T) threshold) in
  if too_few then ret df
  else
    let* last := lift (iloc (sort_values_days false T) 0) in
    let* second_last := lift (iloc (sort_values_days false T) 1) in
    let new_row := late_row last second_last expiry_date days years in
    let* new_df := DataFrame_ [new_row] in
    concat df new_df.

End Interpolation.

(** ** Notions used in the statements *)

Import Pandas Interpolation.

(** The order [sort_values] establishes on the lines. *)
Definition days_order (ascending : bool) (a b : Row) : Prop :=
  before_in_order ascending (days a) (days b) = true.

(** [r] is a line of [T] with the largest [days] below [d]. *)
Definition closest_before (T : DataFrame) (d : Z) (r : Row) : Prop :=
  r ∈ rows T ∧ days r < d ∧
  ∀ r', r' ∈ rows T → days r' < d → days r' ≤ days r.

(** [r] is a line of [T] with the smallest [days] above [d]. *)
Definition closest_after (T : DataFrame) (d : Z) (r : Row) : Prop :=
  r ∈ rows T ∧ d < days r ∧
  ∀ r', r' ∈ rows T → d < days r' → days r ≤ days r'.

(** [first] and [second] are the two lines of [T] with the lowest [days]. *)
Definition two_lowest (T : DataFrame) (first second : Row) : Prop :=
  ∃ rest, rows T ≡ₚ first :: second :: rest ∧
          days first ≤ days second ∧
          ∀ r, r ∈ rest → days second ≤ days r.

(** [last] and [second_last] are the two lines of [T] with the highest
    [days]. *)
Definition two_highest (T : DataFrame) (last second_last : Row) : Prop :=
  ∃ rest, rows T ≡ₚ last :: second_last :: rest ∧
          days second_last ≤ days last ∧
          ∀ r, r ∈ rest → days r ≤ days second_last.

(** The Series [iloc] builds for a line of [T]. *)
Definition series_of (T : DataFrame) (r : Row) : Series :=
  mkSeries (has_reference_price T) (has_forward_ratio T) r.

(** [T] with the record [new] appended by [pd.concat]. *)
Definition appended (T : DataFrame) (new : Row) : DataFrame :=
  concat_frames T (frame_of_records [new]).

(** Running [c] in [h] raises nothing and returns a reference to a frame
    whose value is [F]. *)
Definition returns (c : M loc) (h : list obj) (F : DataFrame) : Prop :=
  ∃ l h', c h = (inr l, h') ∧ h' !! l = Some (OFrame F).

(** What a caller can observe of a call: the exception, or the returned
    reference and the object it points to. *)
Definition outcome (c : M loc) (h : list obj) : exn + loc * option obj :=
  match c h with
  | (inl e, _) => inl e
  | (inr l, h') => inr (l, h' !! l)
  end.

(** [c] never overwrites an object that existed before it ran: the heap it
    leaves is the one it found, followed by what it allocated. *)
Definition allocates_only {A} (c : M A) : Prop :=
  ∀ h, h `prefix_of` (c h).2.

(** Running [c] in [h], where [df] points to the table [T], overwrites no
    object, leaves [T] where it was and, if it returns a reference, returns
    one to a table made of the lines of [T], in their order, followed by at
    most one more line. *)
Definition preserves_table (c : M loc) (h : list obj) (df : loc)
    (T : DataFrame) : Prop :=
  (∀ l o, h !! l = Some o → (c h).2 !! l = Some o) ∧
  (c h).2 !! df = Some (OFrame T) ∧
  (∀ l, (c h).1 = inr l →
        ∃ T' extra, (c h).2 !! l = Some (OFrame T') ∧
                    rows T' = rows T ++ extra ∧ (length extra ≤ 1)%nat).

(** [DEFAULT_PARAMS] still holds the items [config.py] gave it. *)
Definition module_loaded (h : list obj) : Prop :=
  h !! Config.DEFAULT_PARAMS = Some (ODict Config.default_params).

(** The threshold a call with overrides [kwargs] compares [len(df)] with,
    and the result of that comparison. *)
Definition effective_threshold (kwargs : gmap string pyval) : option pyval :=
  (kwargs ∪ Config.default_params) !! min_options_per_expiry.

Definition threshold_check (kwargs : gmap string pyval) (T : DataFrame) : exn + bool :=
  match effective_threshold kwargs with
  | Some v => int_lt (len T) v
  | None => inl KeyError
  end.

(** The straight line through the two anchors, as the specification writes
    it: backwards from [(d1, v1)] with the slope towards [(d2, v2)], and
    forwards from [(d_last, v_last)] with the slope from [(d_prev, v_prev)].
    The differences of days are those of [int64] scalars. *)
Definition backward_projection (v1 v2 : float) (d1 d2 d : Z) : float :=
  let slope := ((v2 - v1) / PyFloat.of_int (Int64.sub d2 d1))%float in
  (v1 - PyFloat.of_int (Int64.sub d1 d) * slope)%float.

Definition forward_projection (v_last v_prev : float) (d_last d_prev d : Z) : float :=
  let slope := ((v_last - v_prev) / PyFloat.of_int (Int64.sub d_last d_prev))%float in
  (v_last + PyFloat.of_int (Int64.sub d d_last) * slope)%float.

(** Every [days] cell of the table is an [int64] value. *)
Definition int64_days (T : DataFrame) : Prop :=
  ∀ r, r ∈ rows T → Int64.in_range (days r).

(** The double nearest to an integer, ties to even, as IEEE 754 defines the
    conversion. *)
Definition nearest_double (z : Z) : spec_float :=
  if z <? 0 then SFopp (binary_normalize prec emax (- z) 0 false)
  else binary_normalize prec emax z 0 false.

(** The factor the operations compute from two [days] values [a] and [b]:
    the difference is the signed 64-bit number congruent to [a - b], and
    its conversion is the double nearest to that number. *)
Definition int64_then_double (a b : Z) : Prop :=
  Int64.in_range (Int64.sub a b) ∧
  (2 ^ 64 | Int64.sub a b - (a - b)) ∧
  Prim2SF (PyFloat.of_int (Int64.sub a b)) = nearest_double (Int64.sub a b).

(** The value read from an optional cell. *)
Definition cell (o : option float) : float := default PrimFloat.nan o.

(** Closed interval test on floats. *)
Definition in_band (lo hi x : float) : bool :=
  PrimFloat.leb lo x && PrimFloat.leb x hi.

(** A field is null when the record has no value for it or holds NaN. *)
Definition is_null (o : option float) : bool :=
  match o with None => true | Some x => PyFloat.is_nan x end.

(** Calls of the two operations that consult [DEFAULT_PARAMS]. *)
Inductive call : Type :=
  | CallEarly (df : loc) (expiry_date days : Z) (years : float)
              (kwargs : gmap string pyval)
  | CallLate (df : loc) (expiry_date days : Z) (years : float)
             (kwargs : gmap string pyval).

Definition run_call (c : call) : M loc :=
  match c with
  | CallEarly df e d y kw => extrapolate_early df e d y kw
  | CallLate df e d y kw => extrapolate_late df e d y kw
  end.

(** The heap after a sequence of calls, whether they raised or not. *)
Definition heap_after (cs : list call) (h : list obj) : list obj :=
  foldl (λ h c, (run_call c h).2) h cs.

(** ** Sample tables *)

(** An observed line with the given [days], rate and optional fields. *)
Definition observed (d : Z) (rate : float)
    (price ratio : option float) : Row :=
  {| expiry_date := d; days := d;
     years := (PyFloat.of_int d / 365)%float;
     discount_rate := rate; method := "direct";
     put_strike := None; call_strike := None;
     put_price := None; call_price := None;
     put_iv := None; call_iv := None; iv_diff := None;
     reference_price := price; forward_ratio := ratio |}.

Definition heap_with (T : DataFrame) : list obj :=
  Config.initial_heap ++ [OFrame T].

Definition the_table : loc := 1%nat.

Definition table_10_30 : DataFrame :=
  mkFrame false false
    [observed 10 0.02 None None; observed 30 0.04 None None].

Definition table_10_20 : DataFrame :=
  mkFrame true true
    [observed 10 0.01 (Some 100%float) (Some 1.01%float);
     observed 20 0.02 (Some 150%float) (Some 1.02%float)].

Definition table_300_365 : DataFrame :=
  mkFrame false false
    [observed 300 0.05 None None; observed 365 0.18 None None].

Definition table_falling_price : DataFrame :=
  mkFrame true true
    [observed 364 0.05 (Some 105%float) (Some 1.5%float);
     observed 365 0.05 (Some 100%float) (Some 1.25%float)].

Definition table_rising_price : DataFrame :=
  mkFrame true false
    [observed 10 0.02 (Some 100%float) None;
     observed 30 0.04 (Some 110%float) None].

Definition table_falling_rate : DataFrame :=
  mkFrame false false
    [observed 10 0.04 None None; observed 30 0.02 None None].

(** Only the first line carries [forward_ratio]. *)
Definition table_one_ratio : DataFrame :=
  mkFrame false true
    [observed 10 0.02 None (Some 1.05%float); observed 30 0.04 None None].

(** The second line holds an explicit null. *)
Definition table_null_ratio : DataFrame :=
  mkFrame false true
    [observed 10 0.02 None (Some 1.05%float);
     observed 30 0.04 None (Some PrimFloat.nan)].

Definition table_duplicate_days : DataFrame :=
  mkFrame false false
    [observed 10 0.02 None None; observed 10 0.04 None None].

Definition table_single : DataFrame :=
  mkFrame false false [observed 10 0.02 None None].

(** ** Chains of fills *)

(** One fill request as a caller issues it: the operation, the target and,
    for the two extrapolators, the overrides. *)
Inductive fill : Type :=
  | FillInterior (expiry_date days : Z) (years : float)
  | FillEarly (expiry_date days : Z) (years : float)
              (kwargs : gmap string pyval)
  | FillLate (expiry_date days : Z) (years : float)
             (kwargs : gmap string pyval).

Definition run_fill (f : fill) (df : loc) : M loc :=
  match f with
  | FillInterior e d y => interpolate_rate df e d y
  | FillEarly e d y kw => extrapolate_early df e d y kw
  | FillLate e d y kw => extrapolate_late df e d y kw
  end.

(** [df = fill(df, ...)] repeated: every fill is applied to the table the
    previous one returned; an exception ends the chain. *)
Fixpoint run_fills (fs : list fill) (df : loc) : M loc :=
  match fs with
  | [] => ret df
  | f :: fs' => let* df' := run_fill f df in run_fills fs' df'
  end.

(** Neither NaN nor an infinity. *)
Definition is_finite (x : float) : bool :=
  negb (PrimFloat.is_nan x) && negb (PrimFloat.is_infinity x).

(** The lines of the table a computation returns, if it returns one. *)
Definition returned_rows (c : M loc) (h : list obj) : option (list Row) :=
  match c h with
  | (inr l, h') =>
      match h' !! l with Some (OFrame F) => Some (rows F) | _ => None end
  | (inl _, _) => None
  end.

(** The seven option-market cells of a line are all null. *)
Definition market_fields_null (r : Row) : Prop :=
  put_strike r = None ∧ call_strike r = None ∧
  put_price r = None ∧ call_price r = None ∧
  put_iv r = None ∧ call_iv r = None ∧ iv_diff r = None.

(** Two tables with the same columns and the same lines, in any order. *)
Definition same_lines (T1 T2 : DataFrame) : Prop :=
  has_reference_price T1 = has_reference_price T2 ∧
  has_forward_ratio T1 = has_forward_ratio T2 ∧
  rows T1 ≡ₚ rows T2.

(** No two lines of the table have the same [days]. *)
Definition distinct_days (T : DataFrame) : Prop :=
  NoDup (days <$> rows T).

(** Three observations, the middle one exactly at day 20. *)
Definition table_10_20_30 : DataFrame :=
  mkFrame false false
    [observed 10 0.02 None None; observed 20 0.05 None None;
     observed 30 0.04 None None].

(** The lines of [table_10_30] in the other order. *)
Definition table_30_10 : DataFrame :=
  mkFrame false false
    [observed 30 0.04 None None; observed 10 0.02 None None].

(** A null rate on the later line, and a null price on the earlier one. *)
Definition table_null_rate : DataFrame :=
  mkFrame true false
    [observed 10 0.02 (Some PrimFloat.nan) None;
     observed 30 PrimFloat.nan (Some 100%float) None].

(** * Properties *)

(** ** Order on floats *)

Lemma SFcompare_Lt_swap x y : SFcompare x y = Some Lt → SFcompare y x = Some Gt.
Proof.
  destruct x as [[]|[]| |[] mx ex], y as [[]|[]| |[] my ey]; simpl; try congruence;
    change (Pos.compare_cont Eq mx my) with (Pos.compare mx my);
    change (Pos.compare_cont Eq my mx) with (Pos.compare my mx);
    rewrite (Z.compare_antisym ex ey), (Pos.compare_antisym mx my);
    destruct (ex ?= ey); simpl; try congruence;
    destruct (mx ?= my)%positive; simpl; congruence.
Qed.

Lemma ltb_asym (a b : float) : PrimFloat.ltb a b = true → PrimFloat.ltb b a = false.
Proof.
  rewrite !ltb_spec. unfold SFltb. intros H.
  destruct (SFcompare (Prim2SF a) (Prim2SF b)) as [[]|] eqn:E; try discriminate.
  by rewrite (SFcompare_Lt_swap _ _ E).
Qed.

Lemma ltb_irrefl (a : float) : PrimFloat.ltb a a = false.
Proof.
  destruct (PrimFloat.ltb a a) eqn:E; [|done].
  by rewrite (ltb_asym _ _ E) in E.
Qed.

Lemma ltb_leb (a b : float) : PrimFloat.ltb a b = true → PrimFloat.leb a b = true.
Proof.
  rewrite ltb_spec, leb_spec. unfold SFltb, SFleb.
  by destruct (SFcompare (Prim2SF a) (Prim2SF b)) as [[]|].
Qed.

Lemma negative_below_cap (x : float) :
  PrimFloat.ltb x 0.0 = true → PrimFloat.ltb x 0.2 = true.
Proof.
  rewrite !ltb_spec.
  replace (Prim2SF 0.0) with (S754_zero false) by by vm_compute.
  replace (Prim2SF 0.2) with (S754_finite false 7205759403792794 (-55))
    by by vm_compute.
  by destruct (Prim2SF x) as [[]|[]| |[] m e].
Qed.

(** ** Differences of days and their conversion *)

Lemma Int64_wrap_in_range z : Int64.in_range (Int64.wrap z).
Proof.
  unfold Int64.in_range, Int64.wrap, Int64.min_int, Int64.max_int.
  pose proof (Z.mod_pos_bound (z - - 2 ^ 63) (2 ^ 64)). lia.
Qed.

Lemma Int64_wrap_id z : Int64.in_range z → Int64.wrap z = z.
Proof.
  unfold Int64.in_range, Int64.wrap, Int64.min_int, Int64.max_int. intros H.
  rewrite Z.mod_small; lia.
Qed.

Lemma Int64_wrap_idem z : Int64.wrap (Int64.wrap z) = Int64.wrap z.
Proof. apply Int64_wrap_id, Int64_wrap_in_range. Qed.

Lemma Int64_wrap_congruent z : (2 ^ 64 | Int64.wrap z - z).
Proof.
  unfold Int64.wrap, Int64.min_int.
  exists (- ((z - - 2 ^ 63) / 2 ^ 64)).
  pose proof (Z.div_mod (z - - 2 ^ 63) (2 ^ 64)). lia.
Qed.

Lemma Int64_sub_exact a b : Int64.in_range (a - b) → Int64.sub a b = a - b.
Proof. apply Int64_wrap_id. Qed.

Lemma Int64_sub_diag a : Int64.sub a a = 0.
Proof. unfold Int64.sub. rewrite Z.sub_diag. by apply Int64_wrap_id. Qed.

Lemma of_int_wrap z : PyFloat.of_int (Int64.wrap z) = PyFloat.of_int z.
Proof. unfold PyFloat.of_int. by rewrite Int64_wrap_idem. Qed.

Lemma of_int_sub a b : PyFloat.of_int (Int64.sub a b) = PyFloat.of_int (a - b).
Proof. apply of_int_wrap. Qed.

Lemma of_uint63_nearest z :
  0 ≤ z < 2 ^ 63 →
  Prim2SF (PrimFloat.of_uint63 (Uint63.of_Z z)) = binary_normalize prec emax z 0 false.
Proof.
  intros H. rewrite of_uint63_spec, Uint63.of_Z_spec.
  rewrite Z.mod_small; [done|]. exact H.
Qed.

Lemma of_int_nearest z :
  Int64.in_range z → Prim2SF (PyFloat.of_int z) = nearest_double z.
Proof.
  intros Hz. unfold PyFloat.of_int. rewrite (Int64_wrap_id z Hz). cbv zeta.
  unfold Int64.in_range, Int64.min_int, Int64.max_int in Hz.
  destruct (z =? Int64.min_int) eqn:Emin.
  - apply Z.eqb_eq in Emin. subst z. by vm_compute.
  - apply Z.eqb_neq in Emin. unfold Int64.min_int in Emin. unfold nearest_double.
    destruct (z <? 0) eqn:Eneg.
    + rewrite opp_spec, of_uint63_nearest; [done|lia].
    + rewrite of_uint63_nearest; [done|lia].
Qed.

Lemma int64_then_double_sub a b : int64_then_double a b.
Proof.
  split; [apply Int64_wrap_in_range|].
  split; [apply Int64_wrap_congruent|].
  apply of_int_nearest, Int64_wrap_in_range.
Qed.

(** ** Sorting *)

Lemma days_order_total asc a b : ¬ days_order asc a b → days_order asc b a.
Proof. unfold days_order, before_in_order. destruct asc; lia. Qed.

Lemma days_order_trans asc a b c :
  days_order asc a b → days_order asc b c → days_order asc a c.
Proof. unfold days_order, before_in_order. destruct asc; lia. Qed.

Lemma insert_sorted_perm asc r l : insert_sorted asc r l ≡ₚ r :: l.
Proof.
  induction l as [|x l IH]; simpl; [done|].
  destruct (before_in_order asc (days r) (days x)); [done|].
  rewrite IH. apply Permutation_swap.
Qed.

Lemma sort_rows_perm asc l : sort_rows asc l ≡ₚ l.
Proof.
  induction l as [|x l IH]; simpl; [done|].
  by rewrite insert_sorted_perm, IH.
Qed.

Lemma insert_sorted_sorted asc r l :
  StronglySorted (days_order asc) l →
  StronglySorted (days_order asc) (insert_sorted asc r l).
Proof.
  induction 1 as [|x l Hl IH Hx]; simpl.
  - repeat constructor.
  - destruct (before_in_order asc (days r) (days x)) eqn:E.
    + constructor; [by constructor|].
      constructor; [exact E|].
      eapply Forall_impl; [exact Hx|].
      intros y Hy. by eapply days_order_trans.
    + constructor; [exact IH|].
      rewrite insert_sorted_perm. constructor; [|exact Hx].
      apply days_order_total. unfold days_order. by rewrite E.
Qed.

Lemma sort_rows_sorted asc l : StronglySorted (days_order asc) (sort_rows asc l).
Proof.
  induction l as [|x l IH]; simpl; [constructor|].
  by apply insert_sorted_sorted.
Qed.

Lemma sort_rows_nil asc l : sort_rows asc l = [] ↔ l = [].
Proof.
  split; [|by intros ->].
  intros H. apply Permutation_nil_r. by rewrite <- H, sort_rows_perm.
Qed.

Lemma sort_rows_length asc l : length (sort_rows asc l) = length l.
Proof. by rewrite sort_rows_perm. Qed.

(** The head of a sorted table comes first in the order among all lines. *)
Lemma sort_rows_head asc l x rest :
  sort_rows asc l = x :: rest →
  x ∈ l ∧ ∀ r, r ∈ l → days_order asc x r.
Proof.
  intros H.
  pose proof (sort_rows_perm asc l) as Hp.
  pose proof (sort_rows_sorted asc l) as Hs.
  rewrite H in Hp, Hs. apply StronglySorted_cons in Hs as [Hx _].
  split.
  - rewrite <- Hp. left.
  - intros r Hr. rewrite <- Hp in Hr.
    apply elem_of_cons in Hr as [->|Hr].
    + unfold days_order, before_in_order. destruct asc; lia.
    + by eapply Forall_forall in Hx.
Qed.

Lemma sort_rows_second asc l x y rest :
  sort_rows asc l = x :: y :: rest →
  l ≡ₚ x :: y :: rest ∧ days_order asc x y ∧ ∀ r, r ∈ rest → days_order asc y r.
Proof.
  intros H.
  pose proof (sort_rows_perm asc l) as Hp.
  pose proof (sort_rows_sorted asc l) as Hs.
  rewrite H in Hp, Hs.
  apply StronglySorted_cons in Hs as [Hx Hs].
  apply StronglySorted_cons in Hs as [Hy _].
  split; [done|]. split.
  - by apply Forall_cons in Hx as [? _].
  - intros r Hr. by eapply Forall_forall in Hy.
Qed.

Lemma sort_rows_two asc l :
  (2 ≤ length l)%nat → ∃ x y rest, sort_rows asc l = x :: y :: rest.
Proof.
  intros Hl. rewrite <- (sort_rows_length asc) in Hl.
  destruct (sort_rows asc l) as [|x [|y rest]]; simpl in Hl; try lia.
  eauto.
Qed.

(** ** The monad and the heap *)

Lemma bind_ok {A B} (c : M A) (k : A → M B) h a h' :
  c h = (inr a, h') → bind c k h = k a h'.
Proof. unfold bind. by intros ->. Qed.

Lemma bind_err {A B} (c : M A) (k : A → M B) h e h' :
  c h = (inl e, h') → bind c k h = (inl e, h').
Proof. unfold bind. by intros ->. Qed.

Lemma lookup_fresh (h : list obj) o ext : (h ++ o :: ext) !! length h = Some o.
Proof. by apply list_lookup_middle. Qed.

Lemma lookup_old (h ext : list obj) l o : h !! l = Some o → (h ++ ext) !! l = Some o.
Proof. apply lookup_app_l_Some. Qed.

Lemma read_frame_ok h l f :
  h !! l = Some (OFrame f) → Py.read_frame l h = (inr f, h).
Proof. unfold Py.read_frame. by intros ->. Qed.

Lemma read_frame_err h l :
  (∀ f, h !! l ≠ Some (OFrame f)) → Py.read_frame l h = (inl InvalidReference, h).
Proof.
  unfold Py.read_frame. intros H.
  destruct (h !! l) as [[|f]|] eqn:E; try done. by destruct (H f).
Qed.

Lemma dict_getitem_ok h l d k v :
  h !! l = Some (ODict d) → d !! k = Some v → Py.dict_getitem l k h = (inr v, h).
Proof.
  intros Hl Hk. unfold Py.dict_getitem, Py.read_dict, bind, lift.
  by rewrite Hl, Hk.
Qed.

Lemma dict_getitem_missing h l d k :
  h !! l = Some (ODict d) → d !! k = None → Py.dict_getitem l k h = (inl KeyError, h).
Proof.
  intros Hl Hk. unfold Py.dict_getitem, Py.read_dict, bind, lift.
  by rewrite Hl, Hk.
Qed.

Lemma concat_ok h a b fa fb :
  h !! a = Some (OFrame fa) → h !! b = Some (OFrame fb) →
  concat a b h = (inr (length h), h ++ [OFrame (concat_frames fa fb)]).
Proof.
  intros Ha Hb. unfold concat.
  rewrite (bind_ok _ _ _ _ _ (read_frame_ok _ _ _ Ha)).
  by rewrite (bind_ok _ _ _ _ _ (read_frame_ok _ _ _ Hb)).
Qed.

(** Appending the new record: the two allocations every successful fill
    ends with. *)
Lemma append_run h df T new :
  h !! df = Some (OFrame T) →
  bind (DataFrame_ [new]) (λ new_df, concat df new_df) h
  = (inr (S (length h)),
     h ++ [OFrame (frame_of_records [new]); OFrame (appended T new)]).
Proof.
  intros Hdf. unfold DataFrame_.
  erewrite bind_ok by reflexivity.
  erewrite concat_ok by (first [apply lookup_fresh | by apply lookup_old]).
  rewrite length_app, <- app_assoc. simpl. by rewrite Nat.add_1_r.
Qed.

Lemma effective_params_run kw h d :
  h !! Config.DEFAULT_PARAMS = Some (ODict d) →
  effective_params kw h = (inr (length h), h ++ [ODict (kw ∪ d)]).
Proof.
  intros Hd. unfold effective_params, Py.dict_copy, Py.read_dict, Py.alloc, bind.
  rewrite Hd. unfold Py.dict_update.
  rewrite lookup_fresh. unfold ret.
  by rewrite insert_app_r_alt, Nat.sub_diag by lia.
Qed.

Lemma effective_params_err kw h :
  (∀ d, h !! Config.DEFAULT_PARAMS ≠ Some (ODict d)) →
  effective_params kw h = (inl InvalidReference, h).
Proof.
  intros H. unfold effective_params, Py.dict_copy, Py.read_dict, bind.
  destruct (h !! Config.DEFAULT_PARAMS) as [[d|]|] eqn:E; try done.
  by destruct (H d).
Qed.

(** ** What each operation does, by cases *)

Lemma interpolate_rate_unchanged h df T e d y :
  h !! df = Some (OFrame T) →
  List.filter (λ r, days r <? d) (rows T) = [] ∨
  List.filter (λ r, d <? days r) (rows T) = [] →
  interpolate_rate df e d y h = (inr df, h).
Proof.
  intros Hdf Hempty. unfold interpolate_rate.
  rewrite (bind_ok _ _ _ _ _ (read_frame_ok _ _ _ Hdf)).
  unfold empty, sort_values_days, select_days_lt, select_days_gt; cbn [rows].
  destruct Hempty as [-> | ->]; cbn [sort_rows foldr]; [done|].
  by destruct (sort_rows false _).
Qed.

Lemma interpolate_rate_appends h df T e d y b bs a as_ :
  h !! df = Some (OFrame T) →
  sort_rows false (List.filter (λ r, days r <? d) (rows T)) = b :: bs →
  sort_rows true (List.filter (λ r, d <? days r) (rows T)) = a :: as_ →
  let new := interpolated_row (series_of T b) (series_of T a) e d y in
  interpolate_rate df e d y h
  = (inr (S (length h)),
     h ++ [OFrame (frame_of_records [new]); OFrame (appended T new)]).
Proof.
  intros Hdf Hb Ha new. unfold interpolate_rate.
  rewrite (bind_ok _ _ _ _ _ (read_frame_ok _ _ _ Hdf)).
  unfold empty, iloc, sort_values_days, select_days_lt, select_days_gt;
    cbn [rows has_reference_price has_forward_ratio].
  rewrite Hb, Ha; cbn [orb lookup list_lookup].
  erewrite bind_ok by reflexivity.
  erewrite bind_ok by reflexivity.
  by apply append_run.
Qed.

Lemma threshold_check_run kw h df T d0 :
  h !! Config.DEFAULT_PARAMS = Some (ODict d0) →
  h !! df = Some (OFrame T) →
  ∀ (k : DataFrame → bool → M loc),
  bind (effective_params kw) (λ params,
    bind (Py.read_frame df) (λ T,
      bind (Py.dict_getitem params min_options_per_expiry) (λ threshold,
        bind (lift (int_lt (len T) threshold)) (k T)))) h
  = match (kw ∪ d0) !! min_options_per_expiry with
    | Some v =>
        match int_lt (len T) v with
        | inr b => k T b (h ++ [ODict (kw ∪ d0)])
        | inl e => (inl e, h ++ [ODict (kw ∪ d0)])
        end
    | None => (inl KeyError, h ++ [ODict (kw ∪ d0)])
    end.
Proof.
  intros Hd Hdf k.
  rewrite (bind_ok _ _ _ _ _ (effective_params_run kw _ _ Hd)).
  erewrite bind_ok by (apply read_frame_ok, lookup_old, Hdf).
  destruct ((kw ∪ d0) !! min_options_per_expiry) as [v|] eqn:Hv.
  - erewrite bind_ok by (eapply dict_getitem_ok; [apply lookup_fresh|exact Hv]).
    unfold lift, bind. by destruct (int_lt (len T) v).
  - erewrite bind_err; [done|].
    eapply dict_getitem_missing; [apply lookup_fresh|exact Hv].
Qed.

Ltac extrapolate_cases Hd Hdf :=
  rewrite (threshold_check_run _ _ _ _ _ Hd Hdf);
  destruct (_ !! min_options_per_expiry) as [v|]; [|done];
  destruct (int_lt _ v) as [err|[|]]; [done|done|];
  unfold iloc, sort_values_days;
    cbn [rows has_reference_price has_forward_ratio];
  match goal with
  | |- context [sort_rows ?asc ?l] =>
      destruct (sort_rows asc l) as [|r1 [|r2 rest]]; cbn [lookup list_lookup]
  end;
  [ by erewrite bind_err by reflexivity
  | erewrite bind_ok by reflexivity; by erewrite bind_err by reflexivity
  | erewrite bind_ok by reflexivity; erewrite bind_ok by reflexivity;
    erewrite append_run by (apply lookup_old, Hdf);
    by rewrite length_app, <- app_assoc, Nat.add_1_r ].

Lemma extrapolate_early_cases h df T e d y kw d0 :
  h !! Config.DEFAULT_PARAMS = Some (ODict d0) →
  h !! df = Some (OFrame T) →
  extrapolate_early df e d y kw h
  = let h1 := h ++ [ODict (kw ∪ d0)] in
    match (kw ∪ d0) !! min_options_per_expiry with
    | None => (inl KeyError, h1)
    | Some v =>
        match int_lt (len T) v with
        | inl err => (inl err, h1)
        | inr true => (inr df, h1)
        | inr false =>
            match sort_rows true (rows T) with
            | first :: second :: _ =>
                let new := early_row (series_of T first) (series_of T second) e d y in
                (inr (S (S (length h))),
                 h ++ [ODict (kw ∪ d0); OFrame (frame_of_records [new]);
                       OFrame (appended T new)])
            | _ => (inl IndexError, h1)
            end
        end
    end.
Proof.
  intros Hd Hdf. unfold extrapolate_early. cbv zeta.
  extrapolate_cases Hd Hdf.
Qed.

Lemma extrapolate_late_cases h df T e d y kw d0 :
  h !! Config.DEFAULT_PARAMS = Some (ODict d0) →
  h !! df = Some (OFrame T) →
  extrapolate_late df e d y kw h
  = let h1 := h ++ [ODict (kw ∪ d0)] in
    match (kw ∪ d0) !! min_options_per_expiry with
    | None => (inl KeyError, h1)
    | Some v =>
        match int_lt (len T) v with
        | inl err => (inl err, h1)
        | inr true => (inr df, h1)
        | inr false =>
            match sort_rows false (rows T) with
            | last :: second_last :: _ =>
                let new := late_row (series_of T last) (series_of T second_last) e d y in
                (inr (S (S (length h))),
                 h ++ [ODict (kw ∪ d0); OFrame (frame_of_records [new]);
                       OFrame (appended T new)])
            | _ => (inl IndexError, h1)
            end
        end
    end.
Proof.
  intros Hd Hdf. unfold extrapolate_late. cbv zeta.
  extrapolate_cases Hd Hdf.
Qed.

(** ** Neighbours and anchors *)

Lemma elem_of_List_filter (f : Row → bool) (l : list Row) r :
  r ∈ List.filter f l ↔ r ∈ l ∧ f r = true.
Proof. rewrite !list_elem_of_In. apply filter_In. Qed.

Lemma List_filter_nil (f : Row → bool) (l : list Row) :
  List.filter f l = [] ↔ ∀ r, r ∈ l → f r = false.
Proof.
  split.
  - intros H r Hr. destruct (f r) eqn:E; [|done].
    assert (r ∈ List.filter f l) as Hin by by apply elem_of_List_filter.
    rewrite H in Hin. by apply not_elem_of_nil in Hin.
  - intros H. destruct (List.filter f l) as [|x l'] eqn:E; [done|].
    assert (x ∈ List.filter f l) as Hin by (rewrite E; left).
    apply elem_of_List_filter in Hin as [Hx Hfx]. by rewrite (H x Hx) in Hfx.
Qed.

Lemma closest_before_head T d b bs :
  sort_rows false (List.filter (λ r, days r <? d) (rows T)) = b :: bs →
  closest_before T d b.
Proof.
  intros H. apply sort_rows_head in H as [Hb Hmax].
  apply elem_of_List_filter in Hb as [Hb Hlt].
  split; [done|]. split; [lia|].
  intros r Hr Hrd.
  assert (days_order false b r) as Ho.
  { apply Hmax, elem_of_List_filter. split; [done|lia]. }
  unfold days_order, before_in_order in Ho. lia.
Qed.

Lemma closest_after_head T d a as_ :
  sort_rows true (List.filter (λ r, d <? days r) (rows T)) = a :: as_ →
  closest_after T d a.
Proof.
  intros H. apply sort_rows_head in H as [Ha Hmin].
  apply elem_of_List_filter in Ha as [Ha Hlt].
  split; [done|]. split; [lia|].
  intros r Hr Hrd.
  assert (days_order true a r) as Ho.
  { apply Hmin, elem_of_List_filter. split; [done|lia]. }
  unfold days_order, before_in_order in Ho. lia.
Qed.

Lemma sorted_selection_cons asc (f : Row → bool) (l : list Row) r :
  r ∈ l → f r = true → ∃ x xs, sort_rows asc (List.filter f l) = x :: xs.
Proof.
  intros Hr Hf.
  destruct (sort_rows asc (List.filter f l)) as [|x xs] eqn:E; [|eauto].
  apply sort_rows_nil in E.
  assert (r ∈ List.filter f l) as Hin by by apply elem_of_List_filter.
  rewrite E in Hin. by apply not_elem_of_nil in Hin.
Qed.

Lemma two_lowest_sorted T first second rest :
  sort_rows true (rows T) = first :: second :: rest → two_lowest T first second.
Proof.
  intros H. apply sort_rows_second in H as (Hp & Hfs & Hrest).
  exists rest. split; [done|].
  unfold days_order, before_in_order in *. split; [lia|].
  intros r Hr. specialize (Hrest r Hr). lia.
Qed.

Lemma two_highest_sorted T last second_last rest :
  sort_rows false (rows T) = last :: second_last :: rest →
  two_highest T last second_last.
Proof.
  intros H. apply sort_rows_second in H as (Hp & Hfs & Hrest).
  exists rest. split; [done|].
  unfold days_order, before_in_order in *. split; [lia|].
  intros r Hr. specialize (Hrest r Hr). lia.
Qed.

Lemma elem_of_pair (a b x : Row) : x ∈ [a; b] → x = a ∨ x = b.
Proof.
  intros [->|H]%elem_of_cons; [by left|].
  apply elem_of_cons in H as [->|H]; [by right|by apply not_elem_of_nil in H].
Qed.

Lemma permutation_of_pair (a b x z : Row) (rest : list Row) :
  [a; b] ≡ₚ x :: z :: rest → rest = [] ∧ ((x = a ∧ z = b) ∨ (x = b ∧ z = a)).
Proof.
  intros Hp.
  assert (rest = []) as ->.
  { apply Permutation_length in Hp. destruct rest; [done|simpl in Hp; lia]. }
  split; [done|].
  assert (a ∈ [x; z]) as Ha by (rewrite <- Hp; left).
  assert (x ∈ [a; b]) as Hx by (rewrite Hp; left).
  apply elem_of_pair in Hx as [->| ->].
  - left. split; [done|]. apply Permutation_cons_inv in Hp.
    by apply Permutation_singleton_l in Hp as [= <-].
  - right. split; [done|].
    assert ([a; b] ≡ₚ [b; a]) as Hswap by apply Permutation_swap.
    rewrite Hswap in Hp. apply Permutation_cons_inv in Hp.
    by apply Permutation_singleton_l in Hp as [= <-].
Qed.

Lemma two_lowest_pair c1 c2 (a b first second : Row) :
  two_lowest (mkFrame c1 c2 [a; b]) first second → days a < days b →
  first = a ∧ second = b.
Proof.
  intros (rest & Hp & Hle & _) Hab. cbn in Hp.
  apply permutation_of_pair in Hp as [_ [[-> ->]|[-> ->]]]; [done|lia].
Qed.

Lemma two_highest_pair c1 c2 (a b last second_last : Row) :
  two_highest (mkFrame c1 c2 [a; b]) last second_last → days a < days b →
  last = b ∧ second_last = a.
Proof.
  intros (rest & Hp & Hle & _) Hab. cbn in Hp.
  apply permutation_of_pair in Hp as [_ [[-> ->]|[-> ->]]]; [lia|done].
Qed.

Lemma rows_appended T new : rows (appended T new) = rows T ++ [new].
Proof. reflexivity. Qed.

Lemma returns_intro (c : M loc) h l h' F :
  c h = (inr l, h') → h' !! l = Some (OFrame F) → returns c h F.
Proof. intros. by exists l, h'. Qed.

Lemma lookup_appended_result (h : list obj) a b :
  (h ++ [a; b]) !! S (length h) = Some b.
Proof.
  replace (h ++ [a; b]) with ((h ++ [a]) ++ [b]) by by rewrite <- app_assoc.
  replace (S (length h)) with (length (h ++ [a])) by (rewrite length_app; simpl; lia).
  apply lookup_fresh.
Qed.

Lemma lookup_appended_result' (h : list obj) p a b :
  (h ++ [p; a; b]) !! S (S (length h)) = Some b.
Proof.
  replace (h ++ [p; a; b]) with ((h ++ [p]) ++ [a; b]) by by rewrite <- app_assoc.
  replace (S (S (length h))) with (S (length (h ++ [p])))
    by (rewrite length_app; simpl; lia).
  apply lookup_appended_result.
Qed.

(** ** C1 *)

(** C1: when the table has a line below and a line above the target,
    [interpolate_rate] appends exactly one record, whose rate is
    [before + f * (after - before)] for a closest line below and a closest
    line above, with [f = (days - before.days) / (after.days - before.days)]
    computed as the program does: each difference as an [int64] and then as
    the nearest double (the differences are the plain ones when the gap
    between the neighbours fits 64 bits).  Between (10, 0.02) and
    (30, 0.04) the rate at 20 is 0.03. *)
Theorem interpolate_rate_linear h df T e d y :
  h !! df = Some (OFrame T) →
  int64_days T →
  Int64.in_range d →
  (∃ r, r ∈ rows T ∧ days r < d) →
  (∃ r, r ∈ rows T ∧ d < days r) →
  ∃ before after new,
    closest_before T d before ∧ closest_after T d after ∧
    returns (interpolate_rate df e d y) h (appended T new) ∧
    rows (appended T new) = rows T ++ [new] ∧
    (let f := (PyFloat.of_int (Int64.sub d (days before))
               / PyFloat.of_int (Int64.sub (days after) (days before)))%float in
     discount_rate new
     = (discount_rate before
        + f * (discount_rate after - discount_rate before))%float) ∧
    int64_then_double d (days before) ∧
    int64_then_double (days after) (days before) ∧
    (Int64.in_range (days after - days before) →
     Int64.sub d (days before) = d - days before ∧
     Int64.sub (days after) (days before) = days after - days before) ∧
    (days before = 10 → discount_rate before = 0.02%float →
     days after = 30 → discount_rate after = 0.04%float → d = 20 →
     discount_rate new = 0.03%float).
Proof.
  intros Hdf Hdays Hd (rb & Hrb & Hlt) (ra & Hra & Hgt).
  destruct (sorted_selection_cons false (λ r, days r <? d) (rows T) rb)
    as (b & bs & Hb); [done|lia|].
  destruct (sorted_selection_cons true (λ r, d <? days r) (rows T) ra)
    as (a & as_ & Ha); [done|lia|].
  pose proof (closest_before_head _ _ _ _ Hb) as Hcb.
  pose proof (closest_after_head _ _ _ _ Ha) as Hca.
  exists b, a, (interpolated_row (series_of T b) (series_of T a) e d y).
  split; [done|]. split; [done|].
  split.
  { eapply returns_intro.
    - by eapply interpolate_rate_appends.
    - apply lookup_appended_result. }
  split; [reflexivity|]. split; [reflexivity|].
  split; [apply int64_then_double_sub|].
  split; [apply int64_then_double_sub|].
  split.
  { intros Hgap. destruct Hcb as (_ & Hbd & _), Hca as (_ & Had & _).
    unfold Int64.in_range, Int64.min_int, Int64.max_int in Hgap.
    split; apply Int64_sub_exact;
      unfold Int64.in_range, Int64.min_int, Int64.max_int; lia. }
  change (discount_rate (interpolated_row (series_of T b) (series_of T a) e d y))
    with (discount_rate b
          + PyFloat.of_int (Int64.sub d (days b))
            / PyFloat.of_int (Int64.sub (days a) (days b))
            * (discount_rate a - discount_rate b))%float.
  intros -> -> -> -> ->. vm_compute. reflexivity.
Qed.

Lemma interpolate_rate_linear_witness :
  int64_days table_10_30 ∧ Int64.in_range 20 ∧
  ∃ new,
    returns (interpolate_rate the_table 20 20 0.05%float)
            (heap_with table_10_30) (appended table_10_30 new) ∧
    rows (appended table_10_30 new) = rows table_10_30 ++ [new] ∧
    discount_rate new = 0.03%float.
Proof.
  assert (int64_days table_10_30) as Hdays.
  { intros r [->| ->]%elem_of_pair; by vm_compute. }
  assert (Int64.in_range 20) as Hd by by vm_compute.
  split; [exact Hdays|]. split; [exact Hd|].
  destruct (interpolate_rate_linear (heap_with table_10_30) the_table table_10_30
              20 20 0.05%float eq_refl Hdays Hd)
    as (before & after & new & Hb & Ha & Hret & Hrows & _ & _ & _ & _ & Hrate).
  - exists (observed 10 0.02 None None). split; [left|reflexivity].
  - exists (observed 30 0.04 None None). split; [right; left|reflexivity].
  - exists new. split; [exact Hret|]. split; [exact Hrows|].
    destruct Hb as (Hbin & Hblt & _), Ha as (Hain & Halt & _).
    apply elem_of_pair in Hbin as [->| ->]; [|by vm_compute in Hblt].
    apply elem_of_pair in Hain as [->| ->]; [by vm_compute in Halt|].
    by apply Hrate.
Defined.

(** The run behind the example of C1. *)
Example interpolate_midpoint :
  ∃ new,
    returns (interpolate_rate the_table 20 20 0.05%float)
            (heap_with table_10_30) (appended table_10_30 new) ∧
    days new = 20 ∧ discount_rate new = 0.03%float ∧
    method new = "interpolated".
Proof.
  eexists. split.
  - eapply returns_intro; [|apply lookup_appended_result].
    by eapply interpolate_rate_appends.
  - by vm_compute.
Qed.

(** ** C2 *)

Lemma default_threshold : Config.default_params !! min_options_per_expiry = Some (VInt 2).
Proof. vm_compute. reflexivity. Qed.

Lemma effective_threshold_default kw :
  kw !! min_options_per_expiry = None → effective_threshold kw = Some (VInt 2).
Proof.
  intros H. unfold effective_threshold.
  by rewrite lookup_union_r, default_threshold.
Qed.

Lemma effective_threshold_override kw v :
  kw !! min_options_per_expiry = Some v → effective_threshold kw = Some v.
Proof. intros H. unfold effective_threshold. by erewrite lookup_union_Some_l. Qed.

Lemma threshold_check_default kw T :
  kw !! min_options_per_expiry = None → threshold_check kw T = inr (len T <? 2).
Proof. intros H. unfold threshold_check. by rewrite effective_threshold_default. Qed.

Lemma extrapolate_early_too_few h df T e d y kw :
  module_loaded h → h !! df = Some (OFrame T) → threshold_check kw T = inr true →
  extrapolate_early df e d y kw h = (inr df, h ++ [ODict (kw ∪ Config.default_params)]).
Proof.
  intros Hm Hdf Hg. rewrite (extrapolate_early_cases _ _ _ _ _ _ _ _ Hm Hdf).
  unfold threshold_check, effective_threshold in Hg. cbv zeta.
  destruct (_ !! min_options_per_expiry); [|done]. by rewrite Hg.
Qed.

Lemma extrapolate_late_too_few h df T e d y kw :
  module_loaded h → h !! df = Some (OFrame T) → threshold_check kw T = inr true →
  extrapolate_late df e d y kw h = (inr df, h ++ [ODict (kw ∪ Config.default_params)]).
Proof.
  intros Hm Hdf Hg. rewrite (extrapolate_late_cases _ _ _ _ _ _ _ _ Hm Hdf).
  unfold threshold_check, effective_threshold in Hg. cbv zeta.
  destruct (_ !! min_options_per_expiry); [|done]. by rewrite Hg.
Qed.

(** C2: with insufficient data each operation raises nothing and returns the
    very table it was given, unchanged: [interpolate_rate] when no line lies
    below the target or none lies above, both extrapolators when [len(df)]
    is below the effective threshold (2 when the caller does not override
    it), whatever the target. *)
Theorem insufficient_data_returns_input h df T e d y kw :
  module_loaded h →
  h !! df = Some (OFrame T) →
  ((∀ r, r ∈ rows T → ¬ days r < d) ∨ (∀ r, r ∈ rows T → ¬ d < days r) →
   interpolate_rate df e d y h = (inr df, h)) ∧
  (threshold_check kw T = inr true →
   ∃ h', extrapolate_early df e d y kw h = (inr df, h') ∧
         h' !! df = Some (OFrame T)) ∧
  (threshold_check kw T = inr true →
   ∃ h', extrapolate_late df e d y kw h = (inr df, h') ∧
         h' !! df = Some (OFrame T)) ∧
  (kw !! min_options_per_expiry = None → (length (rows T) < 2)%nat →
   threshold_check kw T = inr true).
Proof.
  intros Hm Hdf. repeat split.
  - intros Hpart. apply (interpolate_rate_unchanged _ _ _ _ _ _ Hdf).
    destruct Hpart as [H|H]; [left|right]; apply List_filter_nil;
      intros r Hr; specialize (H r Hr); lia.
  - intros Hg. eexists. split; [by eapply extrapolate_early_too_few|].
    by apply lookup_old.
  - intros Hg. eexists. split; [by eapply extrapolate_late_too_few|].
    by apply lookup_old.
  - intros Hkw Hlen. rewrite threshold_check_default by done. f_equal.
    unfold len. lia.
Qed.

Lemma insufficient_data_returns_input_witness :
  interpolate_rate the_table 5 5 0.01%float (heap_with table_10_30)
  = (inr the_table, heap_with table_10_30) ∧
  (∃ h', extrapolate_early the_table 5 5 0.01%float ∅ (heap_with table_single)
         = (inr the_table, h') ∧ h' !! the_table = Some (OFrame table_single)) ∧
  (∃ h', extrapolate_late the_table 50 50 0.1%float ∅ (heap_with table_single)
         = (inr the_table, h') ∧ h' !! the_table = Some (OFrame table_single)).
Proof.
  split.
  - apply (insufficient_data_returns_input (heap_with table_10_30) the_table
             table_10_30 5 5 0.01%float ∅); [reflexivity|reflexivity|].
    left. intros r Hr.
    apply elem_of_cons in Hr as [->|Hr]; [simpl; lia|].
    apply elem_of_cons in Hr as [->|Hr]; [simpl; lia|].
    by apply not_elem_of_nil in Hr.
  - split.
    + apply (insufficient_data_returns_input (heap_with table_single) the_table
               table_single 5 5 0.01%float ∅); reflexivity.
    + apply (insufficient_data_returns_input (heap_with table_single) the_table
               table_single 50 50 0.1%float ∅); reflexivity.
Defined.

(** ** C5, C6, C7: the extrapolated values *)

Lemma max2_floor (a x : float) : PrimFloat.ltb (PyFloat.max2 a x) a = false.
Proof.
  unfold PyFloat.max2. destruct (PrimFloat.ltb a x) eqn:E.
  - by apply ltb_asym.
  - apply ltb_irrefl.
Qed.

Lemma max2_below (a x : float) : PrimFloat.ltb x a = true → PyFloat.max2 a x = a.
Proof. intros H. unfold PyFloat.max2. by rewrite (ltb_asym _ _ H). Qed.

Lemma max2_above (a x : float) : PrimFloat.ltb a x = true → PyFloat.max2 a x = x.
Proof. intros H. unfold PyFloat.max2. by rewrite H. Qed.

Lemma clamp_in_band (x : float) :
  in_band 0 0.2 (PyFloat.max2 0 (PyFloat.min2 0.2 x)) = true.
Proof.
  unfold PyFloat.min2. destruct (PrimFloat.ltb x 0.2) eqn:Ehi; [|reflexivity].
  unfold PyFloat.max2. destruct (PrimFloat.ltb 0 x) eqn:Elo; [|reflexivity].
  unfold in_band. by rewrite !ltb_leb.
Qed.

Lemma passes_threshold kw T :
  (2 ≤ length (rows T))%nat →
  kw !! min_options_per_expiry = None ∨ threshold_check kw T = inr false →
  threshold_check kw T = inr false.
Proof.
  intros Hlen [Hkw|Hg]; [|done].
  rewrite threshold_check_default by done. f_equal. unfold len. lia.
Qed.

Lemma extrapolate_late_appends h df T e d y kw :
  module_loaded h → h !! df = Some (OFrame T) →
  (2 ≤ length (rows T))%nat → threshold_check kw T = inr false →
  ∃ last second_last,
    two_highest T last second_last ∧
    returns (extrapolate_late df e d y kw) h
      (appended T (late_row (series_of T last) (series_of T second_last) e d y)).
Proof.
  intros Hm Hdf Hlen Hg.
  destruct (sort_rows_two false (rows T) Hlen) as (r1 & r2 & rest & Hs).
  exists r1, r2. split; [by eapply two_highest_sorted|].
  eapply returns_intro; [|apply lookup_appended_result'].
  rewrite (extrapolate_late_cases _ _ _ _ _ _ _ _ Hm Hdf). cbv zeta.
  unfold threshold_check, effective_threshold in Hg.
  destruct (_ !! min_options_per_expiry); [|done]. rewrite Hg, Hs. reflexivity.
Qed.

Lemma extrapolate_early_appends h df T e d y kw :
  module_loaded h → h !! df = Some (OFrame T) →
  (2 ≤ length (rows T))%nat → threshold_check kw T = inr false →
  ∃ first second,
    two_lowest T first second ∧
    returns (extrapolate_early df e d y kw) h
      (appended T (early_row (series_of T first) (series_of T second) e d y)).
Proof.
  intros Hm Hdf Hlen Hg.
  destruct (sort_rows_two true (rows T) Hlen) as (r1 & r2 & rest & Hs).
  exists r1, r2. split; [by eapply two_lowest_sorted|].
  eapply returns_intro; [|apply lookup_appended_result'].
  rewrite (extrapolate_early_cases _ _ _ _ _ _ _ _ Hm Hdf). cbv zeta.
  unfold threshold_check, effective_threshold in Hg.
  destruct (_ !! min_options_per_expiry); [|done]. rewrite Hg, Hs. reflexivity.
Qed.

(** C5: on a table of at least two lines that passes the threshold,
    [extrapolate_late] appends one record whose rate is
    [last + (days - last.days) * slope], with the slope between the two
    highest-days lines, clamped into [0.0, 0.2]: 0.0 for a projection below
    zero, 0.2 for one above 0.2, the projection itself strictly in between.
    The differences of days are computed as the program does, as [int64]
    and then as the nearest double.  From (300, 0.05) and (365, 0.18) the
    rate at 730 is exactly 0.2; from (10, 0.02) and (30, 0.04) the rate at
    60 is 0.07. *)
Theorem extrapolate_late_rate h df T e d y kw :
  module_loaded h →
  h !! df = Some (OFrame T) →
  int64_days T →
  Int64.in_range d →
  (2 ≤ length (rows T))%nat →
  kw !! min_options_per_expiry = None ∨ threshold_check kw T = inr false →
  ∃ last second_last new,
    two_highest T last second_last ∧
    returns (extrapolate_late df e d y kw) h (appended T new) ∧
    rows (appended T new) = rows T ++ [new] ∧
    (let slope := ((discount_rate last - discount_rate second_last)
                   / PyFloat.of_int (Int64.sub (days last) (days second_last)))%float in
     let raw := (discount_rate last
                 + PyFloat.of_int (Int64.sub d (days last)) * slope)%float in
     discount_rate new = PyFloat.max2 0.0 (PyFloat.min2 0.2 raw) ∧
     (PrimFloat.ltb raw 0.0 = true → discount_rate new = 0.0%float) ∧
     (PrimFloat.ltb 0.2 raw = true → discount_rate new = 0.2%float) ∧
     (PrimFloat.ltb 0.0 raw = true → PrimFloat.ltb raw 0.2 = true →
      discount_rate new = raw)) ∧
    in_band 0.0 0.2 (discount_rate new) = true ∧
    int64_then_double (days last) (days second_last) ∧
    int64_then_double d (days last) ∧
    (Int64.in_range (days last - days second_last) →
     Int64.in_range (d - days last) →
     Int64.sub (days last) (days second_last) = days last - days second_last ∧
     Int64.sub d (days last) = d - days last) ∧
    (days second_last = 300 → discount_rate second_last = 0.05%float →
     days last = 365 → discount_rate last = 0.18%float → d = 730 →
     discount_rate new = 0.2%float) ∧
    (days second_last = 10 → discount_rate second_last = 0.02%float →
     days last = 30 → discount_rate last = 0.04%float → d = 60 →
     discount_rate new = 0.07%float).
Proof.
  intros Hm Hdf Hdays Hd Hlen Hg. apply passes_threshold in Hg; [|done].
  destruct (extrapolate_late_appends h df T e d y kw) as (r1 & r2 & H2 & Hret);
    try done.
  exists r1, r2, (late_row (series_of T r1) (series_of T r2) e d y).
  split; [done|]. split; [done|]. split; [reflexivity|].
  change (discount_rate (late_row (series_of T r1) (series_of T r2) e d y))
    with (PyFloat.max2 0.0 (PyFloat.min2 0.2
            (discount_rate r1
             + PyFloat.of_int (Int64.sub d (days r1))
               * ((discount_rate r1 - discount_rate r2)
                  / PyFloat.of_int (Int64.sub (days r1) (days r2))))%float)).
  split.
  { cbv zeta. set (raw := (discount_rate r1 + _)%float).
    split; [reflexivity|]. split; [|split].
    - intros H. unfold PyFloat.min2. rewrite (negative_below_cap _ H).
      by apply max2_below.
    - intros H. unfold PyFloat.min2. by rewrite (ltb_asym _ _ H).
    - intros Hlo Hhi. unfold PyFloat.min2. rewrite Hhi. by apply max2_above. }
  split; [apply clamp_in_band|].
  split; [apply int64_then_double_sub|].
  split; [apply int64_then_double_sub|].
  split; [intros H1 H3; split; by apply Int64_sub_exact|].
  split; intros -> -> -> -> ->; vm_compute; reflexivity.
Qed.

Lemma extrapolate_late_rate_witness :
  module_loaded (heap_with table_10_30) ∧
  int64_days table_10_30 ∧ Int64.in_range 60 ∧
  ∃ new,
    returns (extrapolate_late the_table 60 60 0.2%float ∅)
            (heap_with table_10_30) (appended table_10_30 new) ∧
    rows (appended table_10_30 new) = rows table_10_30 ++ [new] ∧
    discount_rate new = 0.07%float ∧
    in_band 0.0 0.2 (discount_rate new) = true.
Proof.
  assert (int64_days table_10_30) as Hdays.
  { intros r [->| ->]%elem_of_pair; by vm_compute. }
  assert (Int64.in_range 60) as Hd by by vm_compute.
  split; [reflexivity|]. split; [exact Hdays|]. split; [exact Hd|].
  destruct (extrapolate_late_rate (heap_with table_10_30) the_table table_10_30
              60 60 0.2%float ∅ eq_refl eq_refl Hdays Hd)
    as (last & prev & new & Hhigh & Hret & Hrows & _ & Hband & _ & _ & _ & _ & Hrate).
  - simpl. lia.
  - left. apply lookup_empty.
  - exists new. split; [exact Hret|]. split; [exact Hrows|].
    apply two_highest_pair in Hhigh as [-> ->]; [|by vm_compute].
    split; [by apply Hrate|exact Hband].
Defined.

(** The run behind the example of C5: the projection is above the band. *)
Example late_rate_is_capped :
  PrimFloat.ltb 0.2 (forward_projection 0.18 0.05 365 300 730) = true ∧
  ∃ new,
    returns (extrapolate_late the_table 730 730 2%float ∅)
            (heap_with table_300_365) (appended table_300_365 new) ∧
    days new = 730 ∧ discount_rate new = 0.2%float ∧
    method new = "extrapolated".
Proof.
  split; [by vm_compute|].
  eexists. split.
  - eapply returns_intro; [|apply lookup_appended_result'].
    rewrite (extrapolate_late_cases _ _ table_300_365 _ _ _ _
               Config.default_params); reflexivity.
  - by vm_compute.
Qed.

(** C6: on a table of at least two lines that passes the threshold,
    [extrapolate_early] appends one record whose rate is
    [first - (first.days - days) * slope], with the slope between the two
    lowest-days lines, floored at 0.0 and not capped: a negative projection
    gives exactly 0.0, a positive one is kept as it is.  The same projection
    and floor are applied, each on its own column, to [reference_price] and
    [forward_ratio] when the table has the column.  The differences of days
    are computed as the program does, as [int64] and then as the nearest
    double. *)
Theorem extrapolate_early_rate h df T e d y kw :
  module_loaded h →
  h !! df = Some (OFrame T) →
  int64_days T →
  Int64.in_range d →
  (2 ≤ length (rows T))%nat →
  kw !! min_options_per_expiry = None ∨ threshold_check kw T = inr false →
  ∃ first second new,
    two_lowest T first second ∧
    returns (extrapolate_early df e d y kw) h (appended T new) ∧
    rows (appended T new) = rows T ++ [new] ∧
    (let slope := ((discount_rate second - discount_rate first)
                   / PyFloat.of_int (Int64.sub (days second) (days first)))%float in
     let raw := (discount_rate first
                 - PyFloat.of_int (Int64.sub (days first) d) * slope)%float in
     discount_rate new = PyFloat.max2 0.0 raw ∧
     (PrimFloat.ltb raw 0.0 = true → discount_rate new = 0.0%float) ∧
     (PrimFloat.ltb 0.0 raw = true → discount_rate new = raw)) ∧
    (has_reference_price T = true →
     let raw := backward_projection (cell (reference_price first))
                  (cell (reference_price second)) (days first) (days second) d in
     reference_price new = Some (PyFloat.max2 0.0 raw) ∧
     (PrimFloat.ltb raw 0.0 = true → reference_price new = Some 0.0%float) ∧
     (PrimFloat.ltb 0.0 raw = true → reference_price new = Some raw)) ∧
    (has_forward_ratio T = true →
     let raw := backward_projection (cell (forward_ratio first))
                  (cell (forward_ratio second)) (days first) (days second) d in
     forward_ratio new = Some (PyFloat.max2 0.0 raw) ∧
     (PrimFloat.ltb raw 0.0 = true → forward_ratio new = Some 0.0%float) ∧
     (PrimFloat.ltb 0.0 raw = true → forward_ratio new = Some raw)) ∧
    (∀ v1 v2 : float,
       backward_projection v1 v2 (days first) (days second) d
       = (v1 - PyFloat.of_int (Int64.sub (days first) d)
               * ((v2 - v1)
                  / PyFloat.of_int (Int64.sub (days second) (days first))))%float) ∧
    int64_then_double (days second) (days first) ∧
    int64_then_double (days first) d ∧
    (Int64.in_range (days second - days first) →
     Int64.in_range (days first - d) →
     Int64.sub (days second) (days first) = days second - days first ∧
     Int64.sub (days first) d = days first - d) ∧
    (days first = 10 → discount_rate first = 0.01%float →
     days second = 20 → discount_rate second = 0.02%float → d = 5 →
     discount_rate new = 0.005%float).
Proof.
  intros Hm Hdf Hdays Hd Hlen Hg. apply passes_threshold in Hg; [|done].
  destruct (extrapolate_early_appends h df T e d y kw) as (r1 & r2 & H2 & Hret);
    try done.
  exists r1, r2, (early_row (series_of T r1) (series_of T r2) e d y).
  split; [done|]. split; [done|]. split; [reflexivity|].
  change (discount_rate (early_row (series_of T r1) (series_of T r2) e d y))
    with (PyFloat.max2 0.0
            (discount_rate r1
             - PyFloat.of_int (Int64.sub (days r1) d)
               * ((discount_rate r2 - discount_rate r1)
                  / PyFloat.of_int (Int64.sub (days r2) (days r1))))%float).
  split; [|split; [|split]].
  - cbv zeta. split; [reflexivity|]. split; intros H.
    + by apply max2_below.
    + by apply max2_above.
  - intros Hcol.
    change (reference_price (early_row (series_of T r1) (series_of T r2) e d y))
      with (if has_reference_price T && has_reference_price T
            then Some (PyFloat.max2 0.0
                   (backward_projection (cell (reference_price r1))
                      (cell (reference_price r2)) (days r1) (days r2) d))
            else None).
    rewrite Hcol. cbn [andb]. cbv zeta.
    split; [reflexivity|]. split; intros H; f_equal.
    + by apply max2_below.
    + by apply max2_above.
  - intros Hcol.
    change (forward_ratio (early_row (series_of T r1) (series_of T r2) e d y))
      with (if has_forward_ratio T && has_forward_ratio T
            then Some (PyFloat.max2 0.0
                   (backward_projection (cell (forward_ratio r1))
                      (cell (forward_ratio r2)) (days r1) (days r2) d))
            else None).
    rewrite Hcol. cbn [andb]. cbv zeta.
    split; [reflexivity|]. split; intros H; f_equal.
    + by apply max2_below.
    + by apply max2_above.
  - split; [reflexivity|].
    split; [apply int64_then_double_sub|].
    split; [apply int64_then_double_sub|].
    split; [intros H1 H3; split; by apply Int64_sub_exact|].
    intros -> -> -> -> ->. vm_compute. reflexivity.
Qed.

Lemma extrapolate_early_rate_witness :
  module_loaded (heap_with table_10_20) ∧
  int64_days table_10_20 ∧ Int64.in_range 5 ∧
  ∃ new,
    returns (extrapolate_early the_table 5 5 0.01%float ∅)
            (heap_with table_10_20) (appended table_10_20 new) ∧
    discount_rate new = 0.005%float ∧
    reference_price new = Some 75%float.
Proof.
  assert (int64_days table_10_20) as Hdays.
  { intros r [->| ->]%elem_of_pair; by vm_compute. }
  assert (Int64.in_range 5) as Hd by by vm_compute.
  split; [reflexivity|]. split; [exact Hdays|]. split; [exact Hd|].
  destruct (extrapolate_early_rate (heap_with table_10_20) the_table table_10_20
              5 5 0.01%float ∅ eq_refl eq_refl Hdays Hd)
    as (first & second & new & Hlow & Hret & _ & _ & Hprice & _ & _ & _ & _ & _
        & Hrate).
  - simpl. lia.
  - left. apply lookup_empty.
  - exists new. split; [exact Hret|].
    apply two_lowest_pair in Hlow as [-> ->]; [|by vm_compute].
    split; [by apply Hrate|].
    destruct (Hprice eq_refl) as (Hvalue & _).
    rewrite Hvalue. by vm_compute.
Defined.

Lemma max2_100_95 (a x : float) :
  a = 100.0%float → x = 95.0%float → PyFloat.max2 a x = 100.0%float.
Proof. intros -> ->. vm_compute. reflexivity. Qed.

(** C7: in [extrapolate_late], when the table has the [reference_price]
    (respectively [forward_ratio]) column, the synthesized value is the
    forward linear projection from the two highest-days lines, replaced by
    the last line's value when the projection is not above it: it is never
    below the last observed value, and a projection above it is kept
    whatever its size.  The differences of days are computed as the program
    does, as [int64] and then as the nearest double.  With a last value of
    100.0 and a projection of 95.0 the synthesized value is 100.0; from
    (10, 100.0) and (30, 110.0) the value at 60 is 125.0. *)
Theorem extrapolate_late_floor_at_last h df T e d y kw :
  module_loaded h →
  h !! df = Some (OFrame T) →
  int64_days T →
  Int64.in_range d →
  (2 ≤ length (rows T))%nat →
  kw !! min_options_per_expiry = None ∨ threshold_check kw T = inr false →
  ∃ last second_last new,
    two_highest T last second_last ∧
    returns (extrapolate_late df e d y kw) h (appended T new) ∧
    (has_reference_price T = true →
     let observed := cell (reference_price last) in
     let projected := forward_projection observed
                        (cell (reference_price second_last))
                        (days last) (days second_last) d in
     ∃ v, reference_price new = Some v ∧
          v = PyFloat.max2 observed projected ∧
          PrimFloat.ltb v observed = false ∧
          (PrimFloat.ltb observed projected = true → v = projected) ∧
          (PrimFloat.ltb projected observed = true → v = observed) ∧
          (observed = 100.0%float → projected = 95.0%float → v = 100.0%float) ∧
          (days second_last = 10 → cell (reference_price second_last) = 100.0%float →
           days last = 30 → observed = 110.0%float → d = 60 →
           v = 125.0%float)) ∧
    (has_forward_ratio T = true →
     let observed := cell (forward_ratio last) in
     let projected := forward_projection observed
                        (cell (forward_ratio second_last))
                        (days last) (days second_last) d in
     ∃ v, forward_ratio new = Some v ∧
          v = PyFloat.max2 observed projected ∧
          PrimFloat.ltb v observed = false ∧
          (PrimFloat.ltb observed projected = true → v = projected) ∧
          (PrimFloat.ltb projected observed = true → v = observed) ∧
          (observed = 100.0%float → projected = 95.0%float → v = 100.0%float) ∧
          (days second_last = 10 → cell (forward_ratio second_last) = 100.0%float →
           days last = 30 → observed = 110.0%float → d = 60 →
           v = 125.0%float)) ∧
    (∀ v1 v2 : float,
       forward_projection v1 v2 (days last) (days second_last) d
       = (v1 + PyFloat.of_int (Int64.sub d (days last))
               * ((v1 - v2)
                  / PyFloat.of_int (Int64.sub (days last) (days second_last))))%float) ∧
    int64_then_double (days last) (days second_last) ∧
    int64_then_double d (days last) ∧
    (Int64.in_range (days last - days second_last) →
     Int64.in_range (d - days last) →
     Int64.sub (days last) (days second_last) = days last - days second_last ∧
     Int64.sub d (days last) = d - days last).
Proof.
  intros Hm Hdf Hdays Hd Hlen Hg. apply passes_threshold in Hg; [|done].
  destruct (extrapolate_late_appends h df T e d y kw) as (r1 & r2 & H2 & Hret);
    try done.
  exists r1, r2, (late_row (series_of T r1) (series_of T r2) e d y).
  split; [done|]. split; [done|].
  assert (∀ a p : float,
            PrimFloat.ltb (PyFloat.max2 a p) a = false ∧
            (PrimFloat.ltb a p = true → PyFloat.max2 a p = p) ∧
            (PrimFloat.ltb p a = true → PyFloat.max2 a p = a) ∧
            (a = 100.0%float → p = 95.0%float → PyFloat.max2 a p = 100.0%float))
    as Hmax.
  { intros a p. split; [apply max2_floor|]. split; [apply max2_above|].
    split; [apply max2_below|apply max2_100_95]. }
  split; [|split; [|split]].
  - intros Hcol.
    change (reference_price (late_row (series_of T r1) (series_of T r2) e d y))
      with (if has_reference_price T && has_reference_price T
            then Some (PyFloat.max2 (cell (reference_price r1))
                   (forward_projection (cell (reference_price r1))
                      (cell (reference_price r2)) (days r1) (days r2) d))
            else None).
    rewrite Hcol. cbn [andb]. cbv zeta. eexists. split; [reflexivity|].
    split; [reflexivity|].
    destruct (Hmax (cell (reference_price r1))
                (forward_projection (cell (reference_price r1))
                   (cell (reference_price r2)) (days r1) (days r2) d))
      as (H1 & H3 & H4 & H5).
    repeat (split; [done|]).
    intros -> -> -> -> ->. by vm_compute.
  - intros Hcol.
    change (forward_ratio (late_row (series_of T r1) (series_of T r2) e d y))
      with (if has_forward_ratio T && has_forward_ratio T
            then Some (PyFloat.max2 (cell (forward_ratio r1))
                   (forward_projection (cell (forward_ratio r1))
                      (cell (forward_ratio r2)) (days r1) (days r2) d))
            else None).
    rewrite Hcol. cbn [andb]. cbv zeta. eexists. split; [reflexivity|].
    split; [reflexivity|].
    destruct (Hmax (cell (forward_ratio r1))
                (forward_projection (cell (forward_ratio r1))
                   (cell (forward_ratio r2)) (days r1) (days r2) d))
      as (H1 & H3 & H4 & H5).
    repeat (split; [done|]).
    intros -> -> -> -> ->. by vm_compute.
  - reflexivity.
  - split; [apply int64_then_double_sub|].
    split; [apply int64_then_double_sub|].
    intros H1 H3; split; by apply Int64_sub_exact.
Qed.

Lemma extrapolate_late_floor_at_last_witness :
  (module_loaded (heap_with table_falling_price) ∧
   int64_days table_falling_price ∧ Int64.in_range 366 ∧
   ∃ new,
     returns (extrapolate_late the_table 366 366 1%float ∅)
             (heap_with table_falling_price) (appended table_falling_price new) ∧
     reference_price new = Some 100.0%float) ∧
  (module_loaded (heap_with table_rising_price) ∧
   int64_days table_rising_price ∧ Int64.in_range 60 ∧
   ∃ new,
     returns (extrapolate_late the_table 60 60 0.2%float ∅)
             (heap_with table_rising_price) (appended table_rising_price new) ∧
     reference_price new = Some 125.0%float).
Proof.
  split.
  - assert (int64_days table_falling_price) as Hdays.
    { intros r [->| ->]%elem_of_pair; by vm_compute. }
    assert (Int64.in_range 366) as Hd by by vm_compute.
    split; [reflexivity|]. split; [exact Hdays|]. split; [exact Hd|].
    destruct (extrapolate_late_floor_at_last (heap_with table_falling_price)
                the_table table_falling_price 366 366 1%float ∅
                eq_refl eq_refl Hdays Hd)
      as (last & prev & new & Hhigh & Hret & Hprice & _).
    + simpl. lia.
    + left. apply lookup_empty.
    + exists new. split; [exact Hret|].
      apply two_highest_pair in Hhigh as [-> ->]; [|by vm_compute].
      destruct (Hprice eq_refl) as (v & Hv & _ & _ & _ & _ & Hfloor & _).
      rewrite Hv. f_equal. apply Hfloor; by vm_compute.
  - assert (int64_days table_rising_price) as Hdays.
    { intros r [->| ->]%elem_of_pair; by vm_compute. }
    assert (Int64.in_range 60) as Hd by by vm_compute.
    split; [reflexivity|]. split; [exact Hdays|]. split; [exact Hd|].
    destruct (extrapolate_late_floor_at_last (heap_with table_rising_price)
                the_table table_rising_price 60 60 0.2%float ∅
                eq_refl eq_refl Hdays Hd)
      as (last & prev & new & Hhigh & Hret & Hprice & _).
    + simpl. lia.
    + left. apply lookup_empty.
    + exists new. split; [exact Hret|].
      apply two_highest_pair in Hhigh as [-> ->]; [|by vm_compute].
      destruct (Hprice eq_refl) as (v & Hv & _ & _ & _ & _ & _ & Hgrow).
      rewrite Hv. f_equal. by apply Hgrow.
Defined.

(** The run behind the example of C7: the projection from (364, 105.0) and
    (365, 100.0) to day 366 is 95.0, and the record gets 100.0. *)
Example falling_price_is_floored :
  forward_projection 100.0 105.0 365 364 366 = 95.0%float ∧
  ∃ new,
    returns (extrapolate_late the_table 366 366 1%float ∅)
            (heap_with table_falling_price) (appended table_falling_price new) ∧
    reference_price new = Some 100.0%float.
Proof.
  split; [by vm_compute|].
  eexists. split.
  - eapply returns_intro; [|apply lookup_appended_result'].
    rewrite (extrapolate_late_cases _ _ table_falling_price _ _ _ _
               Config.default_params); reflexivity.
  - by vm_compute.
Qed.

(** ** The synthesized record of each operation *)

Lemma appended_inj T new new' : appended T new = appended T new' → new = new'.
Proof.
  intros H. apply (f_equal rows) in H. rewrite !rows_appended in H.
  by apply app_inj_tail in H as [_ ?].
Qed.

Lemma appended_ne T new : T ≠ appended T new.
Proof.
  intros H. apply (f_equal (λ F, length (rows F))) in H.
  rewrite rows_appended, length_app in H. simpl in H. lia.
Qed.

Lemma Some_OFrame_inj (a b : DataFrame) : Some (OFrame a) = Some (OFrame b) → a = b.
Proof. congruence. Qed.

Lemma interpolate_rate_cases h df T e d y :
  h !! df = Some (OFrame T) →
  interpolate_rate df e d y h
  = match sort_rows false (List.filter (λ r, days r <? d) (rows T)),
          sort_rows true (List.filter (λ r, d <? days r) (rows T)) with
    | before :: _, after :: _ =>
        let new := interpolated_row (series_of T before) (series_of T after) e d y in
        (inr (S (length h)),
         h ++ [OFrame (frame_of_records [new]); OFrame (appended T new)])
    | _, _ => (inr df, h)
    end.
Proof.
  intros Hdf.
  destruct (sort_rows false _) as [|b bs] eqn:Hb.
  { apply sort_rows_nil in Hb. apply interpolate_rate_unchanged with T; auto. }
  destruct (sort_rows true _) as [|a as_] eqn:Ha.
  { apply sort_rows_nil in Ha. apply interpolate_rate_unchanged with T; auto. }
  by eapply interpolate_rate_appends.
Qed.

Lemma interpolate_rate_synthesized h df T e d y new :
  h !! df = Some (OFrame T) →
  returns (interpolate_rate df e d y) h (appended T new) →
  ∃ before after,
    closest_before T d before ∧ closest_after T d after ∧
    new = interpolated_row (series_of T before) (series_of T after) e d y.
Proof.
  intros Hdf (l & h' & Hrun & Hl).
  rewrite (interpolate_rate_cases _ _ _ _ _ _ Hdf) in Hrun.
  destruct (sort_rows false _) as [|b bs] eqn:Hb;
    [|destruct (sort_rows true _) as [|a as_] eqn:Ha];
    injection Hrun as <- <-.
  - rewrite Hdf in Hl. apply Some_OFrame_inj in Hl. by apply appended_ne in Hl.
  - rewrite Hdf in Hl. apply Some_OFrame_inj in Hl. by apply appended_ne in Hl.
  - rewrite lookup_appended_result in Hl. apply Some_OFrame_inj in Hl.
    apply appended_inj in Hl. exists b, a.
    split; [by eapply closest_before_head|].
    split; [by eapply closest_after_head|done].
Qed.

Lemma extrapolate_early_synthesized h df T e d y kw new :
  module_loaded h → h !! df = Some (OFrame T) →
  returns (extrapolate_early df e d y kw) h (appended T new) →
  ∃ first second,
    two_lowest T first second ∧
    new = early_row (series_of T first) (series_of T second) e d y.
Proof.
  intros Hm Hdf (l & h' & Hrun & Hl).
  rewrite (extrapolate_early_cases _ _ _ _ _ _ _ _ Hm Hdf) in Hrun.
  cbv zeta in Hrun.
  destruct (_ !! min_options_per_expiry) as [v|]; [|done].
  destruct (int_lt _ v) as [err|[|]]; [done| |].
  - injection Hrun as <- <-. rewrite (lookup_old _ _ _ _ Hdf) in Hl.
    apply Some_OFrame_inj in Hl. by apply appended_ne in Hl.
  - destruct (sort_rows true (rows T)) as [|r1 [|r2 rest]] eqn:Hs; try done.
    injection Hrun as <- <-.
    rewrite lookup_appended_result' in Hl. apply Some_OFrame_inj in Hl.
    apply appended_inj in Hl. exists r1, r2.
    split; [by eapply two_lowest_sorted|done].
Qed.

Lemma extrapolate_late_synthesized h df T e d y kw new :
  module_loaded h → h !! df = Some (OFrame T) →
  returns (extrapolate_late df e d y kw) h (appended T new) →
  ∃ last second_last,
    two_highest T last second_last ∧
    new = late_row (series_of T last) (series_of T second_last) e d y.
Proof.
  intros Hm Hdf (l & h' & Hrun & Hl).
  rewrite (extrapolate_late_cases _ _ _ _ _ _ _ _ Hm Hdf) in Hrun.
  cbv zeta in Hrun.
  destruct (_ !! min_options_per_expiry) as [v|]; [|done].
  destruct (int_lt _ v) as [err|[|]]; [done| |].
  - injection Hrun as <- <-. rewrite (lookup_old _ _ _ _ Hdf) in Hl.
    apply Some_OFrame_inj in Hl. by apply appended_ne in Hl.
  - destruct (sort_rows false (rows T)) as [|r1 [|r2 rest]] eqn:Hs; try done.
    injection Hrun as <- <-.
    rewrite lookup_appended_result' in Hl. apply Some_OFrame_inj in Hl.
    apply appended_inj in Hl. exists r1, r2.
    split; [by eapply two_highest_sorted|done].
Qed.

(** ** C3 *)

Lemma is_Some_if {A} (b : bool) (x : A) :
  is_Some (if b then Some x else None) ↔ b = true.
Proof. destruct b; split; intros H; try done; by destruct H. Qed.

(** C3 (as amended): the record synthesized by any of the three operations
    has a [reference_price] (respectively [forward_ratio]) exactly when the
    table has that column, which is when the label is found on both basis
    rows; without the column the record has no value for the field.  Null
    values on a basis row do not cause the field to be left out. *)
Theorem optional_fields_follow_columns h df T e d y kw new :
  module_loaded h →
  h !! df = Some (OFrame T) →
  returns (interpolate_rate df e d y) h (appended T new) ∨
  returns (extrapolate_early df e d y kw) h (appended T new) ∨
  returns (extrapolate_late df e d y kw) h (appended T new) →
  (is_Some (reference_price new) ↔ has_reference_price T = true) ∧
  (is_Some (forward_ratio new) ↔ has_forward_ratio T = true) ∧
  (has_reference_price T = false → reference_price new = None) ∧
  (has_forward_ratio T = false → forward_ratio new = None).
Proof.
  intros Hm Hdf [Hret|[Hret|Hret]].
  - apply interpolate_rate_synthesized in Hret as (b & a & _ & _ & ->); [|done].
    cbn. rewrite !andb_diag, !is_Some_if.
    repeat split; try done; by intros ->.
  - apply extrapolate_early_synthesized in Hret as (b & a & _ & ->); try done.
    cbn. rewrite !andb_diag, !is_Some_if.
    repeat split; try done; by intros ->.
  - apply extrapolate_late_synthesized in Hret as (b & a & _ & ->); try done.
    cbn. rewrite !andb_diag, !is_Some_if.
    repeat split; try done; by intros ->.
Qed.

Lemma optional_fields_follow_columns_witness :
  module_loaded (heap_with table_one_ratio) ∧
  ∃ new,
    returns (interpolate_rate the_table 20 20 0.05%float)
            (heap_with table_one_ratio) (appended table_one_ratio new) ∧
    reference_price new = None ∧ is_Some (forward_ratio new).
Proof.
  split; [reflexivity|].
  exists (interpolated_row
            (series_of table_one_ratio (observed 10 0.02 None (Some 1.05%float)))
            (series_of table_one_ratio (observed 30 0.04 None None))
            20 20 0.05%float).
  assert (returns (interpolate_rate the_table 20 20 0.05%float)
            (heap_with table_one_ratio)
            (appended table_one_ratio
               (interpolated_row
                  (series_of table_one_ratio (observed 10 0.02 None (Some 1.05%float)))
                  (series_of table_one_ratio (observed 30 0.04 None None))
                  20 20 0.05%float))) as Hret.
  { eapply returns_intro; [|apply lookup_appended_result].
    by eapply interpolate_rate_appends. }
  split; [exact Hret|].
  destruct (optional_fields_follow_columns (heap_with table_one_ratio) the_table
              table_one_ratio 20 20 0.05%float ∅ _ eq_refl eq_refl (or_introl Hret))
    as (_ & Hratio & Hprice & _).
  split; [by apply Hprice | by apply Hratio].
Defined.

(** C3 (as stated) fails: when the table has the [forward_ratio] column and
    one of the two basis rows has no value for it, the interpolated record
    still carries the field, holding NaN. *)
Lemma null_basis_field_is_kept :
  (closest_after table_one_ratio 20 (observed 30 0.04 None None) ∧
   forward_ratio (observed 30 0.04 None None) = None ∧
   ∃ new,
     returns (interpolate_rate the_table 20 20 0.05%float)
             (heap_with table_one_ratio) (appended table_one_ratio new) ∧
     forward_ratio new = Some PrimFloat.nan) ∧
  (closest_after table_null_ratio 20 (observed 30 0.04 None (Some PrimFloat.nan)) ∧
   is_null (forward_ratio (observed 30 0.04 None (Some PrimFloat.nan))) = true ∧
   ∃ new,
     returns (interpolate_rate the_table 20 20 0.05%float)
             (heap_with table_null_ratio) (appended table_null_ratio new) ∧
     forward_ratio new = Some PrimFloat.nan).
Proof.
  split; (split; [by eapply closest_after_head|]); (split; [reflexivity|]);
    eexists; (split;
      [ eapply returns_intro;
        [by eapply interpolate_rate_appends | apply lookup_appended_result]
      | vm_compute; reflexivity ]).
Qed.

(** ** C4 *)

Lemma iloc_head F i s : iloc F i = inr s → rows F !! i = Some (line s).
Proof.
  unfold iloc. destruct (rows F !! i); [|done]. by intros [= <-].
Qed.

Lemma interpolation_gap_positive T d before after :
  iloc (sort_values_days false (select_days_lt T d)) 0 = inr before →
  iloc (sort_values_days true (select_days_gt T d)) 0 = inr after →
  0 < s_days after - s_days before.
Proof.
  intros Hb Ha. apply iloc_head in Hb, Ha.
  unfold sort_values_days, select_days_lt, select_days_gt in Hb, Ha.
  cbn [rows] in Hb, Ha.
  destruct (sort_rows false _) as [|b bs] eqn:Eb; [done|].
  destruct (sort_rows true _) as [|a as_] eqn:Ea; [done|].
  injection Hb as Hb. injection Ha as Ha.
  apply closest_before_head in Eb as (_ & Hlt & _).
  apply closest_after_head in Ea as (_ & Hgt & _).
  unfold s_days. rewrite <- Hb, <- Ha. lia.
Qed.

Lemma distinct_days_anchor_gap asc T x y rest :
  NoDup (days <$> rows T) →
  sort_rows asc (rows T) = x :: y :: rest → days y - days x ≠ 0.
Proof.
  intros Hnd Hs. apply sort_rows_second in Hs as (Hp & _).
  rewrite Hp in Hnd. cbn in Hnd.
  apply NoDup_cons in Hnd as [Hx _].
  intros Heq. apply Hx. replace (days x) with (days y) by lia. left.
Qed.

(** C4 (as amended): the days difference [interpolate_rate] divides by is
    never zero, because its two neighbours lie strictly on either side of
    the target; it is the two extrapolators whose anchor rows can have equal
    [days], on a table with duplicate [days] values, and whose denominator
    is then zero.  When the [days] values of the table are pairwise
    distinct, their denominators are not zero either. *)
Theorem degenerate_gap_in_extrapolation_only T d before after :
  iloc (sort_values_days false (select_days_lt T d)) 0 = inr before →
  iloc (sort_values_days true (select_days_gt T d)) 0 = inr after →
  0 < s_days after - s_days before ∧
  (∃ T' first second,
     iloc (sort_values_days true T') 0 = inr first ∧
     iloc (sort_values_days true T') 1 = inr second ∧
     s_days second - s_days first = 0) ∧
  (∃ T' last second_last,
     iloc (sort_values_days false T') 0 = inr last ∧
     iloc (sort_values_days false T') 1 = inr second_last ∧
     s_days last - s_days second_last = 0) ∧
  (∀ T' asc first second,
     NoDup (days <$> rows T') →
     iloc (sort_values_days asc T') 0 = inr first →
     iloc (sort_values_days asc T') 1 = inr second →
     s_days second - s_days first ≠ 0).
Proof.
  intros Hb Ha. split; [by eapply interpolation_gap_positive|].
  split; [|split].
  - exists table_duplicate_days. eexists _, _. by vm_compute.
  - exists table_duplicate_days. eexists _, _. by vm_compute.
  - intros T' asc first second Hnd H0 H1.
    apply iloc_head in H0, H1.
    unfold sort_values_days in H0, H1. cbn [rows] in H0, H1.
    destruct (sort_rows asc (rows T')) as [|x [|z rest]] eqn:Hs; try done.
    injection H0 as H0. injection H1 as H1.
    unfold s_days. rewrite <- H0, <- H1.
    by eapply distinct_days_anchor_gap.
Qed.

Lemma degenerate_gap_in_extrapolation_only_witness :
  0 < s_days (series_of table_10_30 (observed 30 0.04 None None))
      - s_days (series_of table_10_30 (observed 10 0.02 None None)).
Proof.
  apply (degenerate_gap_in_extrapolation_only table_10_30 20
           (series_of table_10_30 (observed 10 0.02 None None))
           (series_of table_10_30 (observed 30 0.04 None None)));
    reflexivity.
Defined.

(** C4 (as stated) fails on both counts: no table makes the two neighbours
    of [interpolate_rate] have equal [days], and a table with duplicate
    [days] makes the anchors of both extrapolators have equal [days]. *)
Lemma degenerate_gap_is_not_in_interpolation :
  (¬ ∃ T d before after,
       iloc (sort_values_days false (select_days_lt T d)) 0 = inr before ∧
       iloc (sort_values_days true (select_days_gt T d)) 0 = inr after ∧
       s_days after = s_days before) ∧
  (let first := series_of table_duplicate_days (observed 10 0.02 None None) in
   let second := series_of table_duplicate_days (observed 10 0.04 None None) in
   iloc (sort_values_days true table_duplicate_days) 0 = inr first ∧
   iloc (sort_values_days true table_duplicate_days) 1 = inr second ∧
   s_days second - s_days first = 0 ∧
   iloc (sort_values_days false table_duplicate_days) 0 = inr first ∧
   iloc (sort_values_days false table_duplicate_days) 1 = inr second ∧
   s_days first - s_days second = 0).
Proof.
  split.
  - intros (T & d & b & a & Hb & Ha & Heq).
    pose proof (interpolation_gap_positive T d b a Hb Ha). lia.
  - by vm_compute.
Qed.

(** ** Nothing that exists is overwritten *)

Lemma allocates_only_ret {A} (a : A) : allocates_only (ret a).
Proof. by intros h. Qed.

Lemma allocates_only_lift {A} (r : exn + A) : allocates_only (lift r).
Proof. by intros h. Qed.

Lemma allocates_only_bind {A B} (c : M A) (k : A → M B) :
  allocates_only c → (∀ a, allocates_only (k a)) → allocates_only (bind c k).
Proof.
  intros Hc Hk h. specialize (Hc h). unfold bind.
  destruct (c h) as [[e|a] h']; [done|].
  etrans; [exact Hc|apply Hk].
Qed.

Lemma allocates_only_alloc o : allocates_only (Py.alloc o).
Proof. intros h. by apply prefix_app_r. Qed.

Lemma allocates_only_read_frame l : allocates_only (Py.read_frame l).
Proof. intros h. unfold Py.read_frame. by destruct (h !! l) as [[]|]. Qed.

Lemma allocates_only_read_dict l : allocates_only (Py.read_dict l).
Proof. intros h. unfold Py.read_dict. by destruct (h !! l) as [[]|]. Qed.

Lemma allocates_only_dict_getitem l k : allocates_only (Py.dict_getitem l k).
Proof.
  apply allocates_only_bind; [apply allocates_only_read_dict|].
  intros d. apply allocates_only_lift.
Qed.

Lemma allocates_only_append df new :
  allocates_only (bind (DataFrame_ [new]) (λ new_df, concat df new_df)).
Proof.
  apply allocates_only_bind; [apply allocates_only_alloc|]. intros new_df.
  apply allocates_only_bind; [apply allocates_only_read_frame|]. intros fa.
  apply allocates_only_bind; [apply allocates_only_read_frame|]. intros fb.
  apply allocates_only_alloc.
Qed.

Lemma allocates_only_effective_params kw : allocates_only (effective_params kw).
Proof.
  intros h.
  destruct (h !! Config.DEFAULT_PARAMS) as [[d|f]|] eqn:E.
  - rewrite (effective_params_run _ _ _ E). by apply prefix_app_r.
  - rewrite effective_params_err; [done|]. intros d. by rewrite E.
  - rewrite effective_params_err; [done|]. intros d. by rewrite E.
Qed.

Lemma allocates_only_interpolate_rate df e d y :
  allocates_only (interpolate_rate df e d y).
Proof.
  apply allocates_only_bind; [apply allocates_only_read_frame|]. intros T.
  cbv zeta. destruct (empty _ || empty _); [apply allocates_only_ret|].
  apply allocates_only_bind; [apply allocates_only_lift|]. intros before.
  apply allocates_only_bind; [apply allocates_only_lift|]. intros after.
  apply allocates_only_append.
Qed.

Lemma allocates_only_extrapolate_early df e d y kw :
  allocates_only (extrapolate_early df e d y kw).
Proof.
  apply allocates_only_bind; [apply allocates_only_effective_params|]. intros p.
  apply allocates_only_bind; [apply allocates_only_read_frame|]. intros T.
  apply allocates_only_bind; [apply allocates_only_dict_getitem|]. intros v.
  apply allocates_only_bind; [apply allocates_only_lift|].
  intros [|]; [apply allocates_only_ret|].
  apply allocates_only_bind; [apply allocates_only_lift|]. intros first.
  apply allocates_only_bind; [apply allocates_only_lift|]. intros second.
  apply allocates_only_append.
Qed.

Lemma allocates_only_extrapolate_late df e d y kw :
  allocates_only (extrapolate_late df e d y kw).
Proof.
  apply allocates_only_bind; [apply allocates_only_effective_params|]. intros p.
  apply allocates_only_bind; [apply allocates_only_read_frame|]. intros T.
  apply allocates_only_bind; [apply allocates_only_dict_getitem|]. intros v.
  apply allocates_only_bind; [apply allocates_only_lift|].
  intros [|]; [apply allocates_only_ret|].
  apply allocates_only_bind; [apply allocates_only_lift|]. intros last.
  apply allocates_only_bind; [apply allocates_only_lift|]. intros second_last.
  apply allocates_only_append.
Qed.

Lemma allocates_only_lookup {A} (c : M A) h l o :
  allocates_only c → h !! l = Some o → (c h).2 !! l = Some o.
Proof. intros Hc Hl. eapply prefix_lookup_Some; [exact Hl|apply Hc]. Qed.

Lemma allocates_only_run_call c : allocates_only (run_call c).
Proof.
  destruct c; [apply allocates_only_extrapolate_early
              |apply allocates_only_extrapolate_late].
Qed.

Lemma heap_after_prefix cs : ∀ h, h `prefix_of` heap_after cs h.
Proof.
  induction cs as [|c cs IH]; intros h; [done|].
  cbn. etrans; [apply (allocates_only_run_call c h)|apply IH].
Qed.

(** ** C8 *)

Lemma interpolate_rate_result h df T e d y :
  h !! df = Some (OFrame T) →
  ∃ l T' extra,
    (interpolate_rate df e d y h).1 = inr l ∧
    (interpolate_rate df e d y h).2 !! l = Some (OFrame T') ∧
    rows T' = rows T ++ extra ∧ (length extra ≤ 1)%nat.
Proof.
  intros Hdf. rewrite (interpolate_rate_cases _ _ _ _ _ _ Hdf).
  destruct (sort_rows false _) as [|b bs];
    [|destruct (sort_rows true _) as [|a as_]]; cbn [fst snd].
  - exists df, T, []. rewrite app_nil_r. repeat split; try done. simpl; lia.
  - exists df, T, []. rewrite app_nil_r. repeat split; try done. simpl; lia.
  - eexists _, _, [_]. split; [reflexivity|].
    split; [apply lookup_appended_result|]. split; [apply rows_appended|done].
Qed.

Ltac extrapolate_result Hdf :=
  cbv zeta;
  destruct (_ !! min_options_per_expiry) as [v|]; [|by left; eexists];
  destruct (int_lt _ v) as [err|[|]]; [by left; eexists| |];
  [ right; eexists _, _, []; rewrite app_nil_r; cbn [fst snd];
    split; [reflexivity|]; split; [by apply lookup_old|];
    split; [done|simpl; lia]
  | match goal with
    | |- context [sort_rows ?asc ?l] =>
        destruct (sort_rows asc l) as [|r1 [|r2 rest]]
    end;
    [ by left; eexists | by left; eexists
    | right; eexists _, _, [_]; cbn [fst snd];
      split; [reflexivity|]; split; [apply lookup_appended_result'|];
      split; [apply rows_appended|done] ] ].

Lemma extrapolate_early_result h df T e d y kw d0 :
  h !! Config.DEFAULT_PARAMS = Some (ODict d0) →
  h !! df = Some (OFrame T) →
  (∃ err, (extrapolate_early df e d y kw h).1 = inl err) ∨
  ∃ l T' extra,
    (extrapolate_early df e d y kw h).1 = inr l ∧
    (extrapolate_early df e d y kw h).2 !! l = Some (OFrame T') ∧
    rows T' = rows T ++ extra ∧ (length extra ≤ 1)%nat.
Proof.
  intros Hd Hdf. rewrite (extrapolate_early_cases _ _ _ _ _ _ _ _ Hd Hdf).
  extrapolate_result Hdf.
Qed.

Lemma extrapolate_late_result h df T e d y kw d0 :
  h !! Config.DEFAULT_PARAMS = Some (ODict d0) →
  h !! df = Some (OFrame T) →
  (∃ err, (extrapolate_late df e d y kw h).1 = inl err) ∨
  ∃ l T' extra,
    (extrapolate_late df e d y kw h).1 = inr l ∧
    (extrapolate_late df e d y kw h).2 !! l = Some (OFrame T') ∧
    rows T' = rows T ++ extra ∧ (length extra ≤ 1)%nat.
Proof.
  intros Hd Hdf. rewrite (extrapolate_late_cases _ _ _ _ _ _ _ _ Hd Hdf).
  extrapolate_result Hdf.
Qed.

Lemma extrapolate_early_default_returns h df T e d y kw :
  module_loaded h → h !! df = Some (OFrame T) →
  kw !! min_options_per_expiry = None →
  ∃ l, (extrapolate_early df e d y kw h).1 = inr l.
Proof.
  intros Hm Hdf Hkw.
  destruct (decide (2 ≤ length (rows T))%nat) as [Hlen|Hlen].
  - destruct (extrapolate_early_appends h df T e d y kw) as (? & ? & _ & l & h' & Hrun & _);
      try done.
    { apply passes_threshold; auto. }
    exists l. by rewrite Hrun.
  - exists df. erewrite extrapolate_early_too_few; try done.
    rewrite threshold_check_default by done. f_equal. unfold len. lia.
Qed.

Lemma extrapolate_late_default_returns h df T e d y kw :
  module_loaded h → h !! df = Some (OFrame T) →
  kw !! min_options_per_expiry = None →
  ∃ l, (extrapolate_late df e d y kw h).1 = inr l.
Proof.
  intros Hm Hdf Hkw.
  destruct (decide (2 ≤ length (rows T))%nat) as [Hlen|Hlen].
  - destruct (extrapolate_late_appends h df T e d y kw) as (? & ? & _ & l & h' & Hrun & _);
      try done.
    { apply passes_threshold; auto. }
    exists l. by rewrite Hrun.
  - exists df. erewrite extrapolate_late_too_few; try done.
    rewrite threshold_check_default by done. f_equal. unfold len. lia.
Qed.

(** C8: whatever the table and the target, each of the three operations
    overwrites no object that existed before the call, so the input table
    still has its value afterwards; a table that is returned consists of
    the input lines, in their order, followed by at most one more line.
    [interpolate_rate] always returns, and so do the two extrapolators when
    the caller does not override the threshold. *)
Theorem operations_preserve_table h df T e d y kw :
  module_loaded h →
  h !! df = Some (OFrame T) →
  preserves_table (interpolate_rate df e d y) h df T ∧
  preserves_table (extrapolate_early df e d y kw) h df T ∧
  preserves_table (extrapolate_late df e d y kw) h df T ∧
  (∃ l, (interpolate_rate df e d y h).1 = inr l) ∧
  (kw !! min_options_per_expiry = None →
   (∃ l, (extrapolate_early df e d y kw h).1 = inr l) ∧
   (∃ l, (extrapolate_late df e d y kw h).1 = inr l)).
Proof.
  intros Hm Hdf.
  destruct (interpolate_rate_result h df T e d y Hdf)
    as (li & Ti & xi & Hli & Hlooki & Hrowsi & Hleni).
  repeat split.
  - intros l o. apply allocates_only_lookup, allocates_only_interpolate_rate.
  - by apply allocates_only_lookup; [apply allocates_only_interpolate_rate|].
  - intros l' Hl'. rewrite Hli in Hl'. injection Hl' as <-. eauto.
  - intros l o. apply allocates_only_lookup, allocates_only_extrapolate_early.
  - by apply allocates_only_lookup; [apply allocates_only_extrapolate_early|].
  - intros l Hl.
    destruct (extrapolate_early_result h df T e d y kw _ Hm Hdf)
      as [[err Herr]|(l' & T' & extra & Hl' & Hlook & Hrows & Hlen)].
    + by rewrite Herr in Hl.
    + rewrite Hl' in Hl. injection Hl as <-. eauto.
  - intros l o. apply allocates_only_lookup, allocates_only_extrapolate_late.
  - by apply allocates_only_lookup; [apply allocates_only_extrapolate_late|].
  - intros l Hl.
    destruct (extrapolate_late_result h df T e d y kw _ Hm Hdf)
      as [[err Herr]|(l' & T' & extra & Hl' & Hlook & Hrows & Hlen)].
    + by rewrite Herr in Hl.
    + rewrite Hl' in Hl. injection Hl as <-. eauto.
  - eauto.
  - by eapply extrapolate_early_default_returns.
  - by eapply extrapolate_late_default_returns.
Qed.

Lemma operations_preserve_table_witness :
  module_loaded (heap_with table_10_30) ∧
  preserves_table (interpolate_rate the_table 20 20 0.05%float)
    (heap_with table_10_30) the_table table_10_30 ∧
  preserves_table (extrapolate_early the_table 5 5 0.01%float ∅)
    (heap_with table_10_30) the_table table_10_30 ∧
  preserves_table (extrapolate_late the_table 60 60 0.2%float ∅)
    (heap_with table_10_30) the_table table_10_30.
Proof.
  split; [reflexivity|].
  split; [|split].
  - apply (operations_preserve_table (heap_with table_10_30) the_table
             table_10_30 20 20 0.05%float ∅); reflexivity.
  - apply (operations_preserve_table (heap_with table_10_30) the_table
             table_10_30 5 5 0.01%float ∅); reflexivity.
  - apply (operations_preserve_table (heap_with table_10_30) the_table
             table_10_30 60 60 0.2%float ∅); reflexivity.
Defined.

(** ** C9 *)

Lemma not_frame_after_alloc (h : list obj) d0 df :
  (∀ T, h !! df ≠ Some (OFrame T)) →
  ∀ T, (h ++ [ODict d0]) !! df ≠ Some (OFrame T).
Proof.
  intros Hno T HT. apply lookup_app_Some in HT as [HT|[Hge HT]].
  - by apply (Hno T).
  - destruct (df - length h)%nat as [|n]; [done|by destruct n].
Qed.

Lemma extrapolate_early_bad_params h df e d y kw :
  (∀ d0, h !! Config.DEFAULT_PARAMS ≠ Some (ODict d0)) →
  extrapolate_early df e d y kw h = (inl InvalidReference, h).
Proof.
  intros H. unfold extrapolate_early.
  by rewrite (bind_err _ _ _ _ _ (effective_params_err kw h H)).
Qed.

Lemma extrapolate_late_bad_params h df e d y kw :
  (∀ d0, h !! Config.DEFAULT_PARAMS ≠ Some (ODict d0)) →
  extrapolate_late df e d y kw h = (inl InvalidReference, h).
Proof.
  intros H. unfold extrapolate_late.
  by rewrite (bind_err _ _ _ _ _ (effective_params_err kw h H)).
Qed.

Lemma extrapolate_early_bad_table h df e d y kw d0 :
  h !! Config.DEFAULT_PARAMS = Some (ODict d0) →
  (∀ T, h !! df ≠ Some (OFrame T)) →
  extrapolate_early df e d y kw h = (inl InvalidReference, h ++ [ODict (kw ∪ d0)]).
Proof.
  intros Hd Hno. unfold extrapolate_early.
  rewrite (bind_ok _ _ _ _ _ (effective_params_run kw _ _ Hd)).
  erewrite bind_err; [done|].
  by apply read_frame_err, not_frame_after_alloc.
Qed.

Lemma extrapolate_late_bad_table h df e d y kw d0 :
  h !! Config.DEFAULT_PARAMS = Some (ODict d0) →
  (∀ T, h !! df ≠ Some (OFrame T)) →
  extrapolate_late df e d y kw h = (inl InvalidReference, h ++ [ODict (kw ∪ d0)]).
Proof.
  intros Hd Hno. unfold extrapolate_late.
  rewrite (bind_ok _ _ _ _ _ (effective_params_run kw _ _ Hd)).
  erewrite bind_err; [done|].
  by apply read_frame_err, not_frame_after_alloc.
Qed.

(** What a caller observes of an extrapolation, as a function of the heap
    and of the one parameter that is read. *)
Lemma extrapolate_early_outcome h df e d y kw :
  outcome (extrapolate_early df e d y kw) h
  = match h !! Config.DEFAULT_PARAMS, h !! df with
    | Some (ODict d0), Some (OFrame T) =>
        match (kw ∪ d0) !! min_options_per_expiry with
        | None => inl KeyError
        | Some v =>
            match int_lt (len T) v with
            | inl err => inl err
            | inr true => inr (df, Some (OFrame T))
            | inr false =>
                match sort_rows true (rows T) with
                | first :: second :: _ =>
                    inr (S (S (length h)),
                         Some (OFrame (appended T
                           (early_row (series_of T first) (series_of T second) e d y))))
                | _ => inl IndexError
                end
            end
        end
    | _, _ => inl InvalidReference
    end.
Proof.
  unfold outcome.
  destruct (h !! Config.DEFAULT_PARAMS) as [[d0|f0]|] eqn:Hd;
    [|by rewrite extrapolate_early_bad_params by (intros ?; congruence)..].
  destruct (h !! df) as [[dx|T]|] eqn:Hdf;
    [by erewrite extrapolate_early_bad_table by (done || intros ?; congruence)|
    |by erewrite extrapolate_early_bad_table by (done || intros ?; congruence)].
  rewrite (extrapolate_early_cases _ _ _ _ _ _ _ _ Hd Hdf). cbv zeta.
  destruct (_ !! min_options_per_expiry) as [v|]; [|done].
  destruct (int_lt _ v) as [err|[|]]; [done| |].
  - by rewrite (lookup_old _ _ _ _ Hdf).
  - destruct (sort_rows true (rows T)) as [|r1 [|r2 rest]]; try done.
    by rewrite lookup_appended_result'.
Qed.

Lemma extrapolate_late_outcome h df e d y kw :
  outcome (extrapolate_late df e d y kw) h
  = match h !! Config.DEFAULT_PARAMS, h !! df with
    | Some (ODict d0), Some (OFrame T) =>
        match (kw ∪ d0) !! min_options_per_expiry with
        | None => inl KeyError
        | Some v =>
            match int_lt (len T) v with
            | inl err => inl err
            | inr true => inr (df, Some (OFrame T))
            | inr false =>
                match sort_rows false (rows T) with
                | last :: second_last :: _ =>
                    inr (S (S (length h)),
                         Some (OFrame (appended T
                           (late_row (series_of T last) (series_of T second_last) e d y))))
                | _ => inl IndexError
                end
            end
        end
    | _, _ => inl InvalidReference
    end.
Proof.
  unfold outcome.
  destruct (h !! Config.DEFAULT_PARAMS) as [[d0|f0]|] eqn:Hd;
    [|by rewrite extrapolate_late_bad_params by (intros ?; congruence)..].
  destruct (h !! df) as [[dx|T]|] eqn:Hdf;
    [by erewrite extrapolate_late_bad_table by (done || intros ?; congruence)|
    |by erewrite extrapolate_late_bad_table by (done || intros ?; congruence)].
  rewrite (extrapolate_late_cases _ _ _ _ _ _ _ _ Hd Hdf). cbv zeta.
  destruct (_ !! min_options_per_expiry) as [v|]; [|done].
  destruct (int_lt _ v) as [err|[|]]; [done| |].
  - by rewrite (lookup_old _ _ _ _ Hdf).
  - destruct (sort_rows false (rows T)) as [|r1 [|r2 rest]]; try done.
    by rewrite lookup_appended_result'.
Qed.

Lemma union_lookup_agree (kw1 kw2 d0 : gmap string pyval) k :
  kw1 !! k = kw2 !! k → (kw1 ∪ d0) !! k = (kw2 ∪ d0) !! k.
Proof. intros H. by rewrite !lookup_union, H. Qed.

Lemma extrapolate_early_agree h df e d y kw1 kw2 :
  kw1 !! min_options_per_expiry = kw2 !! min_options_per_expiry →
  outcome (extrapolate_early df e d y kw1) h
  = outcome (extrapolate_early df e d y kw2) h.
Proof.
  intros H. rewrite !extrapolate_early_outcome.
  destruct (h !! Config.DEFAULT_PARAMS) as [[d0|]|]; try done.
  destruct (h !! df) as [[|T]|]; try done.
  by rewrite (union_lookup_agree kw1 kw2 d0 _ H).
Qed.

Lemma extrapolate_late_agree h df e d y kw1 kw2 :
  kw1 !! min_options_per_expiry = kw2 !! min_options_per_expiry →
  outcome (extrapolate_late df e d y kw1) h
  = outcome (extrapolate_late df e d y kw2) h.
Proof.
  intros H. rewrite !extrapolate_late_outcome.
  destruct (h !! Config.DEFAULT_PARAMS) as [[d0|]|]; try done.
  destruct (h !! df) as [[|T]|]; try done.
  by rewrite (union_lookup_agree kw1 kw2 d0 _ H).
Qed.

Lemma effective_params_threshold h kw v :
  module_loaded h → effective_threshold kw = Some v →
  ∃ params h',
    effective_params kw h = (inr params, h') ∧
    Py.dict_getitem params min_options_per_expiry h' = (inr v, h').
Proof.
  intros Hm Hv. eexists _, _. split; [by apply effective_params_run|].
  eapply dict_getitem_ok; [apply lookup_fresh|exact Hv].
Qed.

(** C9: the two extrapolators look at the configuration only through
    [min_options_per_expiry].  Two override mappings that agree on that key
    (or both omit it) lead to the same observable result on the same heap,
    table and target; so a key other than that one changes nothing; and the
    threshold the call reads from its parameters is the caller's value when
    one is supplied, the default 2 otherwise. *)
Theorem extrapolation_reads_only_threshold h df e d y kw1 kw2 :
  kw1 !! min_options_per_expiry = kw2 !! min_options_per_expiry →
  outcome (extrapolate_early df e d y kw1) h
  = outcome (extrapolate_early df e d y kw2) h ∧
  outcome (extrapolate_late df e d y kw1) h
  = outcome (extrapolate_late df e d y kw2) h ∧
  (∀ k v, k ≠ min_options_per_expiry →
     outcome (extrapolate_early df e d y (<[k:=v]> kw1)) h
     = outcome (extrapolate_early df e d y kw1) h ∧
     outcome (extrapolate_late df e d y (<[k:=v]> kw1)) h
     = outcome (extrapolate_late df e d y kw1) h) ∧
  (module_loaded h →
   ∃ params h' v,
     effective_params kw1 h = (inr params, h') ∧
     Py.dict_getitem params min_options_per_expiry h' = (inr v, h') ∧
     v = default (VInt 2) (kw1 !! min_options_per_expiry)).
Proof.
  intros H. split; [by apply extrapolate_early_agree|].
  split; [by apply extrapolate_late_agree|]. split.
  - intros k v Hk.
    split; [apply extrapolate_early_agree|apply extrapolate_late_agree];
      by rewrite lookup_insert_ne.
  - intros Hm.
    destruct (kw1 !! min_options_per_expiry) as [v|] eqn:Hv.
    + destruct (effective_params_threshold h kw1 v Hm) as (p & h' & ? & ?);
        [by apply effective_threshold_override|].
      by exists p, h', v.
    + destruct (effective_params_threshold h kw1 (VInt 2) Hm) as (p & h' & ? & ?);
        [by apply effective_threshold_default|].
      by exists p, h', (VInt 2).
Qed.

Lemma extrapolation_reads_only_threshold_witness :
  outcome (extrapolate_early the_table 5 5 0.01%float
             {["debug" := VBool false; "max_rate" := VFloat 0.5]})
          (heap_with table_10_30)
  = outcome (extrapolate_early the_table 5 5 0.01%float ∅) (heap_with table_10_30).
Proof.
  refine (proj1 (extrapolation_reads_only_threshold (heap_with table_10_30)
                   the_table 5 5 0.01%float
                   {["debug" := VBool false; "max_rate" := VFloat 0.5]} ∅ _)).
  vm_compute. reflexivity.
Defined.

(** ** C10 *)

(** C10: no sequence of calls of the two extrapolators, whatever their
    overrides, changes the object [DEFAULT_PARAMS] refers to: it holds the
    same items after every call.  The parameters of a later call are
    therefore a fresh dictionary holding the original defaults overlaid
    with that call's own overrides only. *)
Theorem default_params_never_modified cs h d0 :
  h !! Config.DEFAULT_PARAMS = Some (ODict d0) →
  heap_after cs h !! Config.DEFAULT_PARAMS = Some (ODict d0) ∧
  (∀ n, heap_after (take n cs) h !! Config.DEFAULT_PARAMS = Some (ODict d0)) ∧
  (∀ kw, ∃ params h',
     effective_params kw (heap_after cs h) = (inr params, h') ∧
     heap_after cs h !! params = None ∧
     h' !! params = Some (ODict (kw ∪ d0)) ∧
     h' !! Config.DEFAULT_PARAMS = Some (ODict d0)).
Proof.
  intros Hd.
  assert (∀ cs', heap_after cs' h !! Config.DEFAULT_PARAMS = Some (ODict d0)) as Hall.
  { intros cs'. eapply prefix_lookup_Some; [exact Hd|apply heap_after_prefix]. }
  split; [apply Hall|]. split; [intros n; apply Hall|].
  intros kw. eexists _, _.
  split; [apply effective_params_run, Hall|].
  split; [by apply lookup_ge_None|].
  split; [apply lookup_fresh|].
  apply lookup_old, Hall.
Qed.

Lemma default_params_never_modified_witness :
  let cs := [CallEarly the_table 5 5 0.01%float
               {[min_options_per_expiry := VInt 5; "debug" := VBool false]};
             CallLate the_table 60 60 0.2%float
               {["min_rate" := VFloat 0.1]}] in
  heap_after cs (heap_with table_10_30) !! Config.DEFAULT_PARAMS
  = Some (ODict Config.default_params).
Proof.
  apply (default_params_never_modified _ (heap_with table_10_30)
           Config.default_params).
  reflexivity.
Defined.

(** * Further properties of the three operations *)

(** ** NaN in the arithmetic and in the builtin [max] and [min] *)

Lemma is_nan_spec (x : float) : PyFloat.is_nan x = true ↔ Prim2SF x = S754_nan.
Proof.
  split.
  - intros H. unfold Prim2SF.
    change (PrimFloat.is_nan x) with (PyFloat.is_nan x). by rewrite H.
  - intros H. unfold PyFloat.is_nan. by rewrite FloatAxioms.eqb_spec, H.
Qed.

Lemma ltb_nan_l (x y : float) : PyFloat.is_nan x = true → PrimFloat.ltb x y = false.
Proof. intros H%is_nan_spec. by rewrite ltb_spec, H. Qed.

Lemma ltb_nan_r (x y : float) : PyFloat.is_nan y = true → PrimFloat.ltb x y = false.
Proof.
  intros H%is_nan_spec. rewrite ltb_spec, H. by destruct (Prim2SF x) as [[]|[]| |[]].
Qed.

Lemma is_nan_add (a b : float) :
  PyFloat.is_nan a = true ∨ PyFloat.is_nan b = true → PyFloat.is_nan (a + b) = true.
Proof.
  intros H. apply is_nan_spec. rewrite add_spec.
  destruct H as [H%is_nan_spec|H%is_nan_spec]; rewrite H; [done|].
  by destruct (Prim2SF a) as [[]|[]| |[]].
Qed.

Lemma is_nan_sub (a b : float) :
  PyFloat.is_nan a = true ∨ PyFloat.is_nan b = true → PyFloat.is_nan (a - b) = true.
Proof.
  intros H. apply is_nan_spec. rewrite sub_spec.
  destruct H as [H%is_nan_spec|H%is_nan_spec]; rewrite H; [done|].
  by destruct (Prim2SF a) as [[]|[]| |[]].
Qed.

Lemma is_nan_mul (a b : float) :
  PyFloat.is_nan a = true ∨ PyFloat.is_nan b = true → PyFloat.is_nan (a * b) = true.
Proof.
  intros H. apply is_nan_spec. rewrite mul_spec.
  destruct H as [H%is_nan_spec|H%is_nan_spec]; rewrite H; [done|].
  by destruct (Prim2SF a) as [[]|[]| |[]].
Qed.

Lemma is_nan_div (a b : float) :
  PyFloat.is_nan a = true ∨ PyFloat.is_nan b = true → PyFloat.is_nan (a / b) = true.
Proof.
  intros H. apply is_nan_spec. rewrite div_spec.
  destruct H as [H%is_nan_spec|H%is_nan_spec]; rewrite H; [done|].
  by destruct (Prim2SF a) as [[]|[]| |[]].
Qed.

Lemma max2_nan_r (a x : float) : PyFloat.is_nan x = true → PyFloat.max2 a x = a.
Proof. intros H. unfold PyFloat.max2. by rewrite ltb_nan_r. Qed.

Lemma min2_nan_r (a x : float) : PyFloat.is_nan x = true → PyFloat.min2 a x = a.
Proof. intros H. unfold PyFloat.min2. by rewrite ltb_nan_l. Qed.

Lemma is_nan_backward (v1 v2 : float) d1 d2 d :
  PyFloat.is_nan v1 = true ∨ PyFloat.is_nan v2 = true →
  PyFloat.is_nan (backward_projection v1 v2 d1 d2 d) = true.
Proof.
  intros H. unfold backward_projection. cbv zeta.
  destruct H as [H|H].
  - apply is_nan_sub. by left.
  - apply is_nan_sub. right. apply is_nan_mul. right. apply is_nan_div. left.
    apply is_nan_sub. by left.
Qed.

Lemma is_nan_forward (v1 v2 : float) d1 d2 d :
  PyFloat.is_nan v1 = true ∨ PyFloat.is_nan v2 = true →
  PyFloat.is_nan (forward_projection v1 v2 d1 d2 d) = true.
Proof.
  intros H. unfold forward_projection. cbv zeta.
  destruct H as [H|H].
  - apply is_nan_add. by left.
  - apply is_nan_add. right. apply is_nan_mul. right. apply is_nan_div. left.
    apply is_nan_sub. by right.
Qed.

(** ** What the new record carries besides the estimates *)

(** X1: the record an operation appends carries the target's
    [expiry_date], [days] and [years] as they were passed, the tag
    "interpolated" (from [interpolate_rate]) or "extrapolated" (from the two
    extrapolators), and null option-market cells. *)
Theorem synthesized_row_is_tagged h df T e d y kw new :
  module_loaded h →
  h !! df = Some (OFrame T) →
  (returns (interpolate_rate df e d y) h (appended T new) →
   expiry_date new = e ∧ days new = d ∧ years new = y ∧
   method new = "interpolated" ∧ market_fields_null new) ∧
  (returns (extrapolate_early df e d y kw) h (appended T new) ∨
   returns (extrapolate_late df e d y kw) h (appended T new) →
   expiry_date new = e ∧ days new = d ∧ years new = y ∧
   method new = "extrapolated" ∧ market_fields_null new).
Proof.
  intros Hm Hdf. split.
  - intros Hret.
    apply interpolate_rate_synthesized in Hret as (b & a & _ & _ & ->); [|done].
    by repeat split.
  - intros [Hret|Hret].
    + apply extrapolate_early_synthesized in Hret as (b & a & _ & ->); [|done..].
      by repeat split.
    + apply extrapolate_late_synthesized in Hret as (b & a & _ & ->); [|done..].
      by repeat split.
Qed.

Lemma synthesized_row_is_tagged_witness :
  ∃ new,
    returns (interpolate_rate the_table 20 20 0.05%float)
            (heap_with table_10_30) (appended table_10_30 new) ∧
    expiry_date new = 20 ∧ days new = 20 ∧ years new = 0.05%float ∧
    method new = "interpolated" ∧ market_fields_null new.
Proof.
  destruct interpolate_midpoint as (new & Hret & _).
  exists new. split; [exact Hret|].
  exact (proj1 (synthesized_row_is_tagged (heap_with table_10_30) the_table
                  table_10_30 20 20 0.05%float ∅ new eq_refl eq_refl) Hret).
Defined.

(** ** The interpolation weight *)

(** X2: the target of an interpolation lies strictly between its two
    neighbours, so the weight [f] is the quotient of two positive integers,
    the first smaller than the second. *)
Theorem interpolation_target_is_interior T d before after :
  iloc (sort_values_days false (select_days_lt T d)) 0 = inr before →
  iloc (sort_values_days true (select_days_gt T d)) 0 = inr after →
  0 < d - s_days before < s_days after - s_days before.
Proof.
  intros Hb Ha. apply iloc_head in Hb, Ha.
  unfold sort_values_days, select_days_lt, select_days_gt in Hb, Ha.
  cbn [rows] in Hb, Ha.
  destruct (sort_rows false _) as [|b bs] eqn:Eb; [done|].
  destruct (sort_rows true _) as [|a as_] eqn:Ea; [done|].
  injection Hb as Hb. injection Ha as Ha.
  apply closest_before_head in Eb as (_ & Hlt & _).
  apply closest_after_head in Ea as (_ & Hgt & _).
  unfold s_days. rewrite <- Hb, <- Ha. lia.
Qed.

Lemma interpolation_target_is_interior_witness :
  0 < 20 - s_days (series_of table_10_30 (observed 10 0.02 None None))
    < s_days (series_of table_10_30 (observed 30 0.04 None None))
      - s_days (series_of table_10_30 (observed 10 0.02 None None)).
Proof.
  apply (interpolation_target_is_interior table_10_30 20
           (series_of table_10_30 (observed 10 0.02 None None))
           (series_of table_10_30 (observed 30 0.04 None None)));
    reflexivity.
Defined.

(** ** Exceptions of the extrapolators *)

Lemma short_table_sorted asc (l : list Row) :
  (length l < 2)%nat → sort_rows asc l = [] ∨ ∃ r, sort_rows asc l = [r].
Proof.
  intros Hl. rewrite <- (sort_rows_length asc) in Hl.
  destruct (sort_rows asc l) as [|r [|r' rest]]; simpl in Hl; [by left|eauto|lia].
Qed.

(** X3: when the threshold is overridden so that a table of fewer than two
    lines passes the check, both extrapolators raise [IndexError] on reading
    the second anchor; the table is left as it was. *)
Theorem extrapolation_needs_two_rows h df T e d y kw :
  module_loaded h →
  h !! df = Some (OFrame T) →
  threshold_check kw T = inr false →
  (length (rows T) < 2)%nat →
  ∃ h', extrapolate_early df e d y kw h = (inl IndexError, h') ∧
        extrapolate_late df e d y kw h = (inl IndexError, h') ∧
        h' !! df = Some (OFrame T).
Proof.
  intros Hm Hdf Hchk Hlen. exists (h ++ [ODict (kw ∪ Config.default_params)]).
  rewrite (extrapolate_early_cases _ _ _ _ _ _ _ _ Hm Hdf).
  rewrite (extrapolate_late_cases _ _ _ _ _ _ _ _ Hm Hdf). cbv zeta.
  unfold threshold_check, effective_threshold in Hchk.
  destruct (_ !! min_options_per_expiry) as [v|]; [|done]. rewrite Hchk.
  split; [|split; [|by apply lookup_old]].
  - by destruct (short_table_sorted true _ Hlen) as [->|[r ->]].
  - by destruct (short_table_sorted false _ Hlen) as [->|[r ->]].
Qed.

Lemma extrapolation_needs_two_rows_witness :
  ∃ h', extrapolate_early the_table 5 5 0.01%float
          {[min_options_per_expiry := VInt 1]} (heap_with table_single)
        = (inl IndexError, h') ∧
        extrapolate_late the_table 5 5 0.01%float
          {[min_options_per_expiry := VInt 1]} (heap_with table_single)
        = (inl IndexError, h') ∧
        h' !! the_table = Some (OFrame table_single).
Proof.
  apply (extrapolation_needs_two_rows (heap_with table_single) the_table
           table_single 5 5 0.01%float {[min_options_per_expiry := VInt 1]}).
  - reflexivity.
  - reflexivity.
  - by vm_compute.
  - simpl. lia.
Defined.

(** X4: a [min_options_per_expiry] override of [None] or of a string makes
    the comparison with [len(df)] raise [TypeError] in both extrapolators,
    whatever the table. *)
Theorem threshold_must_be_a_number h df T e d y kw v :
  module_loaded h →
  h !! df = Some (OFrame T) →
  kw !! min_options_per_expiry = Some v →
  v = VNone ∨ (∃ s, v = VStr s) →
  (extrapolate_early df e d y kw h).1 = inl TypeError ∧
  (extrapolate_late df e d y kw h).1 = inl TypeError.
Proof.
  intros Hm Hdf Hkw Hv.
  rewrite (extrapolate_early_cases _ _ _ _ _ _ _ _ Hm Hdf).
  rewrite (extrapolate_late_cases _ _ _ _ _ _ _ _ Hm Hdf). cbv zeta.
  rewrite (lookup_union_Some_l _ _ _ _ Hkw).
  by destruct Hv as [->|[s ->]].
Qed.

Lemma threshold_must_be_a_number_witness :
  (extrapolate_early the_table 5 5 0.01%float
     {[min_options_per_expiry := VStr "2"]} (heap_with table_10_30)).1
  = inl TypeError.
Proof.
  refine (proj1 (threshold_must_be_a_number (heap_with table_10_30) the_table
                   table_10_30 5 5 0.01%float
                   {[min_options_per_expiry := VStr "2"]} (VStr "2")
                   eq_refl eq_refl _ _)).
  - by vm_compute.
  - right. by exists "2"%string.
Defined.

(** ** The table an operation returns *)

Lemma appended_columns T (new : Row) :
  (is_Some (reference_price new) ↔ has_reference_price T = true) →
  (is_Some (forward_ratio new) ↔ has_forward_ratio T = true) →
  has_reference_price (appended T new) = has_reference_price T ∧
  has_forward_ratio (appended T new) = has_forward_ratio T.
Proof.
  intros Hp Hr. cbn. rewrite !orb_false_r. split.
  - destruct (has_reference_price T); [done|]. cbn.
    apply bool_decide_eq_false. intros H. by apply Hp in H.
  - destruct (has_forward_ratio T); [done|]. cbn.
    apply bool_decide_eq_false. intros H. by apply Hr in H.
Qed.

Lemma interpolated_row_columns T b a e d y :
  let new := interpolated_row (series_of T b) (series_of T a) e d y in
  has_reference_price (appended T new) = has_reference_price T ∧
  has_forward_ratio (appended T new) = has_forward_ratio T.
Proof.
  apply appended_columns; cbn; rewrite andb_diag; apply is_Some_if.
Qed.

Lemma early_row_columns T b a e d y :
  let new := early_row (series_of T b) (series_of T a) e d y in
  has_reference_price (appended T new) = has_reference_price T ∧
  has_forward_ratio (appended T new) = has_forward_ratio T.
Proof.
  apply appended_columns; cbn; rewrite andb_diag; apply is_Some_if.
Qed.

Lemma late_row_columns T b a e d y :
  let new := late_row (series_of T b) (series_of T a) e d y in
  has_reference_price (appended T new) = has_reference_price T ∧
  has_forward_ratio (appended T new) = has_forward_ratio T.
Proof.
  apply appended_columns; cbn; rewrite andb_diag; apply is_Some_if.
Qed.

(** A fill that returns either hands back the reference it was given, or a
    reference to a new object: the table with one record appended and the
    same columns. *)
Lemma run_fill_cases h df T f l h' :
  module_loaded h →
  h !! df = Some (OFrame T) →
  run_fill f df h = (inr l, h') →
  h `prefix_of` h' ∧
  (l = df ∨
   ∃ new, h !! l = None ∧ h' !! l = Some (OFrame (appended T new)) ∧
          has_reference_price (appended T new) = has_reference_price T ∧
          has_forward_ratio (appended T new) = has_forward_ratio T).
Proof.
  intros Hm Hdf Hrun. split.
  { replace h' with (run_fill f df h).2 by by rewrite Hrun.
    destruct f; [apply allocates_only_interpolate_rate
                |apply allocates_only_extrapolate_early
                |apply allocates_only_extrapolate_late]. }
  destruct f as [e d y|e d y kw|e d y kw]; cbn [run_fill] in Hrun.
  - rewrite (interpolate_rate_cases _ _ _ _ _ _ Hdf) in Hrun.
    destruct (sort_rows false _) as [|b bs];
      [|destruct (sort_rows true _) as [|a as_]];
      injection Hrun as <- <-; [by left|by left|right].
    eexists. split; [apply lookup_ge_None; lia|].
    split; [apply lookup_appended_result|apply interpolated_row_columns].
  - rewrite (extrapolate_early_cases _ _ _ _ _ _ _ _ Hm Hdf) in Hrun.
    cbv zeta in Hrun.
    destruct (_ !! min_options_per_expiry) as [v|]; [|done].
    destruct (int_lt _ v) as [err|[|]]; [done| |].
    { injection Hrun as <- <-. by left. }
    destruct (sort_rows true (rows T)) as [|r1 [|r2 rest]]; try done.
    injection Hrun as <- <-. right.
    eexists. split; [apply lookup_ge_None; lia|].
    split; [apply lookup_appended_result'|apply early_row_columns].
  - rewrite (extrapolate_late_cases _ _ _ _ _ _ _ _ Hm Hdf) in Hrun.
    cbv zeta in Hrun.
    destruct (_ !! min_options_per_expiry) as [v|]; [|done].
    destruct (int_lt _ v) as [err|[|]]; [done| |].
    { injection Hrun as <- <-. by left. }
    destruct (sort_rows false (rows T)) as [|r1 [|r2 rest]]; try done.
    injection Hrun as <- <-. right.
    eexists. split; [apply lookup_ge_None; lia|].
    split; [apply lookup_appended_result'|apply late_row_columns].
Qed.

(** X5: the table an operation returns has exactly the optional columns
    of the table it was given: no operation adds or drops
    [reference_price] or [forward_ratio]. *)
Theorem columns_are_preserved h df T f l h' T' :
  module_loaded h →
  h !! df = Some (OFrame T) →
  run_fill f df h = (inr l, h') →
  h' !! l = Some (OFrame T') →
  has_reference_price T' = has_reference_price T ∧
  has_forward_ratio T' = has_forward_ratio T.
Proof.
  intros Hm Hdf Hrun Hl.
  destruct (run_fill_cases h df T f l h' Hm Hdf Hrun)
    as [Hpre [->|(new & _ & Hnew & Hcols)]].
  - rewrite (prefix_lookup_Some _ _ _ _ Hdf Hpre) in Hl.
    apply Some_OFrame_inj in Hl. by subst.
  - rewrite Hnew in Hl. apply Some_OFrame_inj in Hl. by subst.
Qed.

(** X6: the returned reference is the one that was passed exactly when no
    record was appended; otherwise it points to an object that did not
    exist before the call, holding one line more. *)
Theorem result_is_input_iff_unchanged h df T f l h' T' :
  module_loaded h →
  h !! df = Some (OFrame T) →
  run_fill f df h = (inr l, h') →
  h' !! l = Some (OFrame T') →
  (l = df ↔ T' = T) ∧
  (l ≠ df → h !! l = None ∧ length (rows T') = S (length (rows T))).
Proof.
  intros Hm Hdf Hrun Hl.
  destruct (run_fill_cases h df T f l h' Hm Hdf Hrun)
    as [Hpre [->|(new & Hfresh & Hnew & _)]].
  - rewrite (prefix_lookup_Some _ _ _ _ Hdf Hpre) in Hl.
    apply Some_OFrame_inj in Hl. by subst.
  - rewrite Hnew in Hl. apply Some_OFrame_inj in Hl. subst T'.
    assert (l ≠ df) as Hne by (intros ->; congruence).
    split; [split; [done|]|].
    + intros Heq. symmetry in Heq. by apply appended_ne in Heq.
    + intros _. split; [done|].
      rewrite rows_appended, length_app. simpl. lia.
Qed.

Lemma columns_are_preserved_witness :
  ∃ l h' T',
    run_fill (FillInterior 20 20 0.05%float) the_table (heap_with table_one_ratio)
    = (inr l, h') ∧
    h' !! l = Some (OFrame T') ∧
    has_reference_price T' = has_reference_price table_one_ratio ∧
    has_forward_ratio T' = has_forward_ratio table_one_ratio.
Proof.
  pose proof (interpolate_rate_appends (heap_with table_one_ratio) the_table
                table_one_ratio 20 20 0.05%float
                (observed 10 0.02 None (Some 1.05%float)) []
                (observed 30 0.04 None None) [] eq_refl eq_refl eq_refl) as Hrun.
  cbv zeta in Hrun.
  eexists _, _, _. split; [exact Hrun|]. split; [apply lookup_appended_result|].
  refine (columns_are_preserved (heap_with table_one_ratio) the_table
            table_one_ratio (FillInterior 20 20 0.05%float) _ _ _ _ _
            Hrun (lookup_appended_result _ _ _)); reflexivity.
Defined.

Lemma result_is_input_iff_unchanged_witness :
  ∃ l h' T',
    run_fill (FillInterior 20 20 0.05%float) the_table (heap_with table_10_30)
    = (inr l, h') ∧
    h' !! l = Some (OFrame T') ∧
    (l = the_table ↔ T' = table_10_30) ∧
    (l ≠ the_table →
     heap_with table_10_30 !! l = None ∧
     length (rows T') = S (length (rows table_10_30))).
Proof.
  pose proof (interpolate_rate_appends (heap_with table_10_30) the_table
                table_10_30 20 20 0.05%float
                (observed 10 0.02 None None) []
                (observed 30 0.04 None None) [] eq_refl eq_refl eq_refl) as Hrun.
  cbv zeta in Hrun.
  eexists _, _, _. split; [exact Hrun|]. split; [apply lookup_appended_result|].
  refine (result_is_input_iff_unchanged (heap_with table_10_30) the_table
            table_10_30 (FillInterior 20 20 0.05%float) _ _ _ _ _
            Hrun (lookup_appended_result _ _ _)); reflexivity.
Defined.

(** ** Chains of fills *)

Lemma run_fills_cons f fs df h :
  run_fills (f :: fs) df h
  = match run_fill f df h with
    | (inl err, h1) => (inl err, h1)
    | (inr df1, h1) => run_fills fs df1 h1
    end.
Proof. reflexivity. Qed.

(** X7: filling a table again and again, each time on the table the
    previous fill returned, yields the original lines, in their order,
    followed by at most one line per fill, under the original columns; the
    object the chain started from, and every other object, is as it was. *)
Theorem fills_extend_the_table fs : ∀ h df T l h',
  module_loaded h →
  h !! df = Some (OFrame T) →
  run_fills fs df h = (inr l, h') →
  ∃ T' extra,
    h' !! l = Some (OFrame T') ∧
    rows T' = rows T ++ extra ∧ (length extra ≤ length fs)%nat ∧
    has_reference_price T' = has_reference_price T ∧
    has_forward_ratio T' = has_forward_ratio T ∧
    h `prefix_of` h'.
Proof.
  induction fs as [|f fs IH]; intros h df T l h' Hm Hdf Hrun.
  - injection Hrun as <- <-. exists T, []. rewrite app_nil_r. by repeat split.
  - rewrite run_fills_cons in Hrun.
    destruct (run_fill f df h) as [[err|df1] h1] eqn:Hf; [done|].
    destruct (run_fill_cases h df T f df1 h1 Hm Hdf Hf)
      as [Hpre [->|(new & _ & Hnew & Hcp & Hcr)]].
    + destruct (IH h1 df T l h') as (T' & extra & Hl & Hrows & Hlen & Hc1 & Hc2 & Hp);
        [by eapply prefix_lookup_Some|by eapply prefix_lookup_Some|done|].
      exists T', extra. repeat split; try done; [simpl; lia|by etrans].
    + destruct (IH h1 df1 (appended T new) l h')
        as (T' & extra & Hl & Hrows & Hlen & Hc1 & Hc2 & Hp);
        [by eapply prefix_lookup_Some|done|done|].
      exists T', (new :: extra). repeat split; try done.
      * by rewrite Hrows, rows_appended, <- app_assoc.
      * simpl; lia.
      * by rewrite Hc1.
      * by rewrite Hc2.
      * by etrans.
Qed.

Lemma fills_extend_the_table_witness :
  ∃ l h' T' extra,
    run_fills [FillInterior 20 20 0.05%float; FillLate 60 60 0.2%float ∅]
              the_table (heap_with table_10_30) = (inr l, h') ∧
    h' !! l = Some (OFrame T') ∧
    rows T' = rows table_10_30 ++ extra ∧ (length extra ≤ 2)%nat ∧
    heap_with table_10_30 `prefix_of` h'.
Proof.
  pose proof (interpolate_rate_appends (heap_with table_10_30) the_table
                table_10_30 20 20 0.05%float
                (observed 10 0.02 None None) []
                (observed 30 0.04 None None) [] eq_refl eq_refl eq_refl) as Hrun.
  cbv zeta in Hrun.
  set (new := interpolated_row _ _ _ _ _) in Hrun.
  set (h1 := heap_with table_10_30 ++ _) in Hrun.
  assert (module_loaded h1) as Hm1 by reflexivity.
  assert (h1 !! S (length (heap_with table_10_30))
          = Some (OFrame (appended table_10_30 new))) as Hl1
    by apply lookup_appended_result.
  pose proof (extrapolate_late_cases h1 _ _ 60 60 0.2%float ∅ _ Hm1 Hl1) as Hlate.
  cbv zeta in Hlate.
  change ((∅ ∪ Config.default_params) !! min_options_per_expiry)
    with (effective_threshold ∅) in Hlate.
  rewrite (effective_threshold_default ∅ (lookup_empty _)) in Hlate.
  change (int_lt (len (appended table_10_30 new)) (VInt 2))
    with (@inr exn bool false) in Hlate.
  change (sort_rows false (rows (appended table_10_30 new)))
    with [observed 30 0.04 None None; new; observed 10 0.02 None None] in Hlate.
  assert (run_fills [FillInterior 20 20 0.05%float; FillLate 60 60 0.2%float ∅]
            the_table (heap_with table_10_30)
          = (inr (S (S (length h1))),
             h1 ++ [ODict (∅ ∪ Config.default_params);
                    OFrame (frame_of_records
                      [late_row (series_of (appended table_10_30 new)
                                   (observed 30 0.04 None None))
                                (series_of (appended table_10_30 new) new)
                                60 60 0.2%float]);
                    OFrame (appended (appended table_10_30 new)
                      (late_row (series_of (appended table_10_30 new)
                                   (observed 30 0.04 None None))
                                (series_of (appended table_10_30 new) new)
                                60 60 0.2%float))])) as Hchain.
  { rewrite run_fills_cons. cbn [run_fill]. rewrite Hrun.
    rewrite run_fills_cons. cbn [run_fill]. rewrite Hlate. reflexivity. }
  destruct (fills_extend_the_table _ (heap_with table_10_30) the_table
              table_10_30 _ _ eq_refl eq_refl Hchain)
    as (T' & extra & Hl & Hrows & Hlen & _ & _ & Hpre).
  eexists _, _, T', extra.
  split; [exact Hchain|]. split; [exact Hl|]. split; [exact Hrows|].
  split; [exact Hlen|exact Hpre].
Defined.

(** The chain of the three fills on the table (10, 0.02), (30, 0.04)
    returns a table of five lines. *)
Example three_fills_five_lines :
  (λ rs : list Row, (days <$> rs, method <$> rs))
    <$> returned_rows
          (run_fills [FillInterior 20 20 0.05%float; FillEarly 5 5 0.01%float ∅;
                      FillLate 60 60 0.2%float ∅] the_table)
          (heap_with table_10_30)
  = Some ([10; 30; 20; 5; 60],
          ["direct"; "direct"; "interpolated"; "extrapolated";
           "extrapolated"]%string).
Proof. by vm_compute. Qed.

(** ** Interpolating twice at the same target *)

Lemma filter_appended_target (f : Row → bool) (l : list Row) (new : Row) :
  f new = false → List.filter f (l ++ [new]) = List.filter f l.
Proof.
  intros H. rewrite List.filter_app. simpl. rewrite H. apply app_nil_r.
Qed.

Lemma series_of_same_columns T T' r :
  has_reference_price T' = has_reference_price T →
  has_forward_ratio T' = has_forward_ratio T →
  series_of T' r = series_of T r.
Proof. unfold series_of. by intros -> ->. Qed.

(** X8: [interpolate_rate] does not look for a line at the target itself: a
    line whose [days] equals the target is on neither side.  So applying it
    again to the table it returned finds the same two neighbours and
    appends the same record a second time. *)
Theorem interpolating_twice_repeats_the_row h df T e d y new :
  h !! df = Some (OFrame T) →
  returns (interpolate_rate df e d y) h (appended T new) →
  returns (run_fills [FillInterior e d y; FillInterior e d y] df) h
          (appended (appended T new) new).
Proof.
  intros Hdf (l & h1 & Hrun & Hl).
  pose proof Hrun as Hcase.
  rewrite (interpolate_rate_cases _ _ _ _ _ _ Hdf) in Hcase.
  destruct (sort_rows false _) as [|b bs] eqn:Hb;
    [|destruct (sort_rows true _) as [|a as_] eqn:Ha];
    injection Hcase as <- <-.
  - rewrite Hdf in Hl. apply Some_OFrame_inj in Hl. by apply appended_ne in Hl.
  - rewrite Hdf in Hl. apply Some_OFrame_inj in Hl. by apply appended_ne in Hl.
  - rewrite lookup_appended_result in Hl. apply Some_OFrame_inj in Hl.
    apply appended_inj in Hl.
    set (h1 := h ++ _) in *.
    assert (h1 !! S (length h) = Some (OFrame (appended T new))) as Hl1.
    { unfold h1. rewrite lookup_appended_result. by rewrite Hl. }
    assert (days new = d) as Hd by by rewrite <- Hl.
    destruct (interpolated_row_columns T b a e d y) as [Hc1 Hc2].
    cbv zeta in Hc1, Hc2. rewrite Hl in Hc1, Hc2.
    eapply returns_intro.
    + rewrite run_fills_cons. cbn [run_fill]. rewrite Hrun.
      rewrite run_fills_cons. cbn [run_fill].
      erewrite (interpolate_rate_appends h1 _ (appended T new) e d y b bs a as_ Hl1).
      * reflexivity.
      * rewrite rows_appended, filter_appended_target; [done|]. rewrite Hd. lia.
      * rewrite rows_appended, filter_appended_target; [done|]. rewrite Hd. lia.
    + rewrite lookup_appended_result.
      by rewrite !(series_of_same_columns T (appended T new)), Hl.
Qed.

Lemma interpolating_twice_repeats_the_row_witness :
  ∃ new,
    returns (interpolate_rate the_table 20 20 0.05%float)
            (heap_with table_10_20_30) (appended table_10_20_30 new) ∧
    returns (run_fills [FillInterior 20 20 0.05%float; FillInterior 20 20 0.05%float]
                       the_table)
            (heap_with table_10_20_30)
            (appended (appended table_10_20_30 new) new).
Proof.
  eexists.
  assert (returns (interpolate_rate the_table 20 20 0.05%float)
            (heap_with table_10_20_30)
            (appended table_10_20_30
               (interpolated_row
                  (series_of table_10_20_30 (observed 10 0.02 None None))
                  (series_of table_10_20_30 (observed 30 0.04 None None))
                  20 20 0.05%float))) as Hret.
  { eapply returns_intro; [|apply lookup_appended_result].
    by eapply interpolate_rate_appends. }
  split; [exact Hret|].
  apply (interpolating_twice_repeats_the_row (heap_with table_10_20_30) the_table
           table_10_20_30 20 20 0.05%float _ eq_refl Hret).
Defined.

(** ** The order of the lines does not matter *)

Lemma distinct_days_inj (l : list Row) x z :
  NoDup (days <$> l) → x ∈ l → z ∈ l → days x = days z → x = z.
Proof.
  induction l as [|r l IH]; intros Hnd Hx Hz Heq; [by apply not_elem_of_nil in Hx|].
  cbn in Hnd. apply NoDup_cons in Hnd as [Hr Hnd].
  apply elem_of_cons in Hx as [->|Hx]; apply elem_of_cons in Hz as [->|Hz].
  - done.
  - destruct Hr. rewrite Heq. by apply list_elem_of_fmap_2.
  - destruct Hr. rewrite <- Heq. by apply list_elem_of_fmap_2.
  - by apply IH.
Qed.

Lemma days_order_antisym asc a b :
  days_order asc a b → days_order asc b a → days a = days b.
Proof. unfold days_order, before_in_order. destruct asc; lia. Qed.

Lemma sorted_distinct_unique asc (l1 : list Row) : ∀ l2,
  NoDup (days <$> l1) →
  StronglySorted (days_order asc) l1 →
  StronglySorted (days_order asc) l2 →
  l1 ≡ₚ l2 → l1 = l2.
Proof.
  induction l1 as [|x l1 IH]; intros l2 Hnd Hs1 Hs2 Hp.
  - by apply Permutation_nil_l in Hp.
  - destruct l2 as [|z l2]; [by apply Permutation_nil_r in Hp|].
    apply StronglySorted_cons in Hs1 as [Hx Hs1].
    apply StronglySorted_cons in Hs2 as [Hz Hs2].
    assert (x = z) as ->.
    { destruct (decide (days x = days z)) as [Heq|Hne].
      - apply (distinct_days_inj (x :: l1)); [done|left| |done].
        rewrite Hp. left.
      - exfalso. apply Hne.
        assert (x ∈ z :: l2) as Hxin by (rewrite <- Hp; left).
        assert (z ∈ x :: l1) as Hzin by (rewrite Hp; left).
        apply elem_of_cons in Hxin as [->|Hxin]; [done|].
        apply elem_of_cons in Hzin as [->|Hzin]; [done|].
        apply (days_order_antisym asc).
        + by eapply Forall_forall in Hx.
        + by eapply Forall_forall in Hz. }
    f_equal. apply IH; try done.
    + cbn in Hnd. by apply NoDup_cons in Hnd as [_ ?].
    + by apply Permutation_cons_inv in Hp.
Qed.

Lemma sort_rows_of_permutation asc (l1 l2 : list Row) :
  NoDup (days <$> l1) → l1 ≡ₚ l2 → sort_rows asc l1 = sort_rows asc l2.
Proof.
  intros Hnd Hp. apply (sorted_distinct_unique asc).
  - by rewrite sort_rows_perm.
  - apply sort_rows_sorted.
  - apply sort_rows_sorted.
  - by rewrite !sort_rows_perm.
Qed.

Lemma List_filter_permutation (f : Row → bool) (l1 l2 : list Row) :
  l1 ≡ₚ l2 → List.filter f l1 ≡ₚ List.filter f l2.
Proof.
  induction 1 as [|x l1 l2 _ IH|x z l|l1 l2 l3 _ IH1 _ IH2]; simpl.
  - done.
  - destruct (f x); by rewrite IH.
  - destruct (f x), (f z); try done. apply Permutation_swap.
  - by etrans.
Qed.

Lemma List_filter_distinct_days (f : Row → bool) (l : list Row) :
  NoDup (days <$> l) → NoDup (days <$> List.filter f l).
Proof.
  induction l as [|x l IH]; simpl; [done|].
  intros [Hx Hnd]%NoDup_cons. destruct (f x); [|by apply IH].
  cbn. apply NoDup_cons. split; [|by apply IH].
  intros Hin. apply Hx.
  apply list_elem_of_fmap in Hin as (r & -> & Hr).
  apply elem_of_List_filter in Hr as [Hr _]. by apply list_elem_of_fmap_2.
Qed.

Lemma sorted_selection_of_permutation asc (f : Row → bool) (l1 l2 : list Row) :
  NoDup (days <$> l1) → l1 ≡ₚ l2 →
  sort_rows asc (List.filter f l1) = sort_rows asc (List.filter f l2).
Proof.
  intros Hnd Hp. apply sort_rows_of_permutation.
  - by apply List_filter_distinct_days.
  - by apply List_filter_permutation.
Qed.

Lemma same_lines_series T1 T2 r : same_lines T1 T2 → series_of T1 r = series_of T2 r.
Proof. intros (H1 & H2 & _). unfold series_of. by rewrite H1, H2. Qed.

Lemma same_lines_len T1 T2 : same_lines T1 T2 → len T1 = len T2.
Proof. intros (_ & _ & Hp). unfold len. by rewrite Hp. Qed.

(** X9: when no two lines have the same [days], the record an operation
    appends depends on which lines the table has, not on their order: on
    two tables with the same columns and the same lines in different orders,
    each operation appends the same record or appends nothing on both. *)
Theorem result_ignores_row_order h1 h2 df1 df2 T1 T2 f new :
  module_loaded h1 → module_loaded h2 →
  h1 !! df1 = Some (OFrame T1) →
  h2 !! df2 = Some (OFrame T2) →
  same_lines T1 T2 →
  distinct_days T1 →
  returns (run_fill f df1) h1 (appended T1 new) →
  returns (run_fill f df2) h2 (appended T2 new).
Proof.
  intros Hm1 Hm2 Hdf1 Hdf2 Hsame Hnd (l & h' & Hrun & Hl).
  pose proof Hsame as (_ & _ & Hp).
  destruct f as [e d y|e d y kw|e d y kw]; cbn [run_fill] in *.
  - rewrite (interpolate_rate_cases _ _ _ _ _ _ Hdf1) in Hrun.
    destruct (sort_rows false _) as [|b bs] eqn:Hb;
      [|destruct (sort_rows true _) as [|a as_] eqn:Ha];
      injection Hrun as <- <-.
    + rewrite Hdf1 in Hl. apply Some_OFrame_inj in Hl. by apply appended_ne in Hl.
    + rewrite Hdf1 in Hl. apply Some_OFrame_inj in Hl. by apply appended_ne in Hl.
    + rewrite lookup_appended_result in Hl. apply Some_OFrame_inj in Hl.
      apply appended_inj in Hl. subst new.
      rewrite (sorted_selection_of_permutation _ _ _ _ Hnd Hp) in Hb.
      rewrite (sorted_selection_of_permutation _ _ _ _ Hnd Hp) in Ha.
      rewrite !(same_lines_series T1 T2) by done.
      eapply returns_intro; [|apply lookup_appended_result].
      by eapply interpolate_rate_appends.
  - rewrite (extrapolate_early_cases _ _ _ _ _ _ _ _ Hm1 Hdf1) in Hrun.
    cbv zeta in Hrun.
    destruct (_ !! min_options_per_expiry) as [v|] eqn:Hv; [|done].
    destruct (int_lt _ v) as [err|[|]] eqn:Hlt; [done| |].
    { injection Hrun as <- <-. rewrite (lookup_old _ _ _ _ Hdf1) in Hl.
      apply Some_OFrame_inj in Hl. by apply appended_ne in Hl. }
    destruct (sort_rows true (rows T1)) as [|r1 [|r2 rest]] eqn:Hs; try done.
    injection Hrun as <- <-.
    rewrite lookup_appended_result' in Hl. apply Some_OFrame_inj in Hl.
    apply appended_inj in Hl. subst new.
    rewrite (sort_rows_of_permutation _ _ _ Hnd Hp) in Hs.
    rewrite (same_lines_len T1 T2) in Hlt by done.
    rewrite !(same_lines_series T1 T2) by done.
    eapply returns_intro; [|apply lookup_appended_result'].
    rewrite (extrapolate_early_cases _ _ _ _ _ _ _ _ Hm2 Hdf2). cbv zeta.
    by rewrite Hv, Hlt, Hs.
  - rewrite (extrapolate_late_cases _ _ _ _ _ _ _ _ Hm1 Hdf1) in Hrun.
    cbv zeta in Hrun.
    destruct (_ !! min_options_per_expiry) as [v|] eqn:Hv; [|done].
    destruct (int_lt _ v) as [err|[|]] eqn:Hlt; [done| |].
    { injection Hrun as <- <-. rewrite (lookup_old _ _ _ _ Hdf1) in Hl.
      apply Some_OFrame_inj in Hl. by apply appended_ne in Hl. }
    destruct (sort_rows false (rows T1)) as [|r1 [|r2 rest]] eqn:Hs; try done.
    injection Hrun as <- <-.
    rewrite lookup_appended_result' in Hl. apply Some_OFrame_inj in Hl.
    apply appended_inj in Hl. subst new.
    rewrite (sort_rows_of_permutation _ _ _ Hnd Hp) in Hs.
    rewrite (same_lines_len T1 T2) in Hlt by done.
    rewrite !(same_lines_series T1 T2) by done.
    eapply returns_intro; [|apply lookup_appended_result'].
    rewrite (extrapolate_late_cases _ _ _ _ _ _ _ _ Hm2 Hdf2). cbv zeta.
    by rewrite Hv, Hlt, Hs.
Qed.

Lemma result_ignores_row_order_witness :
  ∃ new,
    returns (run_fill (FillInterior 20 20 0.05%float) the_table)
            (heap_with table_10_30) (appended table_10_30 new) ∧
    returns (run_fill (FillInterior 20 20 0.05%float) the_table)
            (heap_with table_30_10) (appended table_30_10 new).
Proof.
  destruct interpolate_midpoint as (new & Hret & _).
  exists new. split; [exact Hret|].
  apply (result_ignores_row_order (heap_with table_10_30) (heap_with table_30_10)
           the_table the_table table_10_30 table_30_10
           (FillInterior 20 20 0.05%float) new).
  - reflexivity.
  - reflexivity.
  - reflexivity.
  - reflexivity.
  - split; [reflexivity|]. split; [reflexivity|]. apply Permutation_swap.
  - refine (bool_decide_unpack _ _). vm_compute. exact I.
  - exact Hret.
Defined.

(** ** Nulls and out-of-band projections in the estimates *)

Lemma is_null_cell (o : option float) :
  is_null o = true → PyFloat.is_nan (cell o) = true.
Proof. destruct o; [done|]. intros _. by vm_compute. Qed.

(** X10: on a table whose days, like the target, are [int64] values, the
    rate [extrapolate_late] writes is 0.0 when the projection is below zero,
    0.2 when it is above 0.2, the projection itself when it lies strictly
    between the two, and 0.2 when the projection is NaN (as it is when an
    anchor's rate is null).  The projection is the last rate plus the
    [int64] distance from the last day, as a double, times the slope of the
    two highest-days lines. *)
Theorem late_rate_clamp h df T e d y kw new :
  module_loaded h →
  h !! df = Some (OFrame T) →
  int64_days T →
  Int64.in_range d →
  returns (extrapolate_late df e d y kw) h (appended T new) →
  ∃ last second_last,
    two_highest T last second_last ∧
    let raw := (discount_rate last
                + PyFloat.of_int (Int64.sub d (days last))
                  * ((discount_rate last - discount_rate second_last)
                     / PyFloat.of_int
                         (Int64.sub (days last) (days second_last))))%float in
    raw = forward_projection (discount_rate last)
            (discount_rate second_last) (days last) (days second_last) d ∧
    (PrimFloat.ltb raw 0.0 = true → discount_rate new = 0.0%float) ∧
    (PrimFloat.ltb 0.2 raw = true → discount_rate new = 0.2%float) ∧
    (PrimFloat.ltb 0.0 raw = true → PrimFloat.ltb raw 0.2 = true →
     discount_rate new = raw) ∧
    (PyFloat.is_nan raw = true → discount_rate new = 0.2%float) ∧
    (PyFloat.is_nan (discount_rate last) = true ∨
     PyFloat.is_nan (discount_rate second_last) = true →
     discount_rate new = 0.2%float) ∧
    int64_then_double (days last) (days second_last) ∧
    int64_then_double d (days last) ∧
    (days second_last = 10 → discount_rate second_last = 0.04%float →
     days last = 30 → discount_rate last = 0.02%float → d = 60 →
     discount_rate new = 0.0%float).
Proof.
  intros Hm Hdf Hdays Hd Hret.
  apply extrapolate_late_synthesized in Hret as (r1 & r2 & H2 & ->); [|done..].
  exists r1, r2. split; [done|]. cbv zeta.
  change (discount_rate (late_row (series_of T r1) (series_of T r2) e d y))
    with (PyFloat.max2 0.0 (PyFloat.min2 0.2
            (forward_projection (discount_rate r1) (discount_rate r2)
               (days r1) (days r2) d))).
  change (discount_rate r1
          + PyFloat.of_int (Int64.sub d (days r1))
            * ((discount_rate r1 - discount_rate r2)
               / PyFloat.of_int (Int64.sub (days r1) (days r2))))%float
    with (forward_projection (discount_rate r1) (discount_rate r2)
            (days r1) (days r2) d).
  set (raw := forward_projection _ _ _ _ _).
  assert (PyFloat.is_nan raw = true →
          PyFloat.max2 0.0 (PyFloat.min2 0.2 raw) = 0.2%float) as Hnan.
  { intros H. by rewrite min2_nan_r. }
  split; [reflexivity|].
  split.
  { intros H. unfold PyFloat.min2. rewrite (negative_below_cap _ H).
    by apply max2_below. }
  split.
  { intros H. unfold PyFloat.min2. by rewrite (ltb_asym _ _ H). }
  split.
  { intros Hlo Hhi. unfold PyFloat.min2. rewrite Hhi. by apply max2_above. }
  split; [exact Hnan|].
  split.
  { intros H. apply Hnan. by apply is_nan_forward. }
  split; [apply int64_then_double_sub|].
  split; [apply int64_then_double_sub|].
  subst raw. intros -> -> -> -> ->. by vm_compute.
Qed.

(** X11: [extrapolate_early] does not propagate nulls: when the rate of one
    of its two anchors is NaN it writes the rate 0.0, and when the table has
    the [reference_price] (or [forward_ratio]) column and one of the two
    anchors has no value for it, it writes 0.0 for that field. *)
Theorem early_null_becomes_zero h df T e d y kw new :
  module_loaded h →
  h !! df = Some (OFrame T) →
  returns (extrapolate_early df e d y kw) h (appended T new) →
  ∃ first second,
    two_lowest T first second ∧
    (PyFloat.is_nan (discount_rate first) = true ∨
     PyFloat.is_nan (discount_rate second) = true →
     discount_rate new = 0.0%float) ∧
    (has_reference_price T = true →
     is_null (reference_price first) = true ∨
     is_null (reference_price second) = true →
     reference_price new = Some 0.0%float) ∧
    (has_forward_ratio T = true →
     is_null (forward_ratio first) = true ∨
     is_null (forward_ratio second) = true →
     forward_ratio new = Some 0.0%float).
Proof.
  intros Hm Hdf Hret.
  apply extrapolate_early_synthesized in Hret as (r1 & r2 & H2 & ->); [|done..].
  exists r1, r2. split; [done|]. repeat split.
  - intros H.
    change (discount_rate (early_row (series_of T r1) (series_of T r2) e d y))
      with (PyFloat.max2 0.0 (backward_projection (discount_rate r1)
              (discount_rate r2) (days r1) (days r2) d)).
    by apply max2_nan_r, is_nan_backward.
  - intros Hcol H. cbn. rewrite Hcol. cbn. f_equal.
    change (PyFloat.max2 0.0 (backward_projection (cell (reference_price r1))
              (cell (reference_price r2)) (days r1) (days r2) d) = 0.0%float).
    apply max2_nan_r, is_nan_backward.
    destruct H as [H|H]; [left|right]; by apply is_null_cell.
  - intros Hcol H. cbn. rewrite Hcol. cbn. f_equal.
    change (PyFloat.max2 0.0 (backward_projection (cell (forward_ratio r1))
              (cell (forward_ratio r2)) (days r1) (days r2) d) = 0.0%float).
    apply max2_nan_r, is_nan_backward.
    destruct H as [H|H]; [left|right]; by apply is_null_cell.
Qed.

(** X12: [interpolate_rate] propagates nulls: when the rate of one of its
    two neighbours is NaN the interpolated rate is NaN, and when the table
    has the [reference_price] (or [forward_ratio]) column and one of the two
    neighbours has no value for it, the field is written with NaN. *)
Theorem interpolation_propagates_null h df T e d y new :
  h !! df = Some (OFrame T) →
  returns (interpolate_rate df e d y) h (appended T new) →
  ∃ before after,
    closest_before T d before ∧ closest_after T d after ∧
    (PyFloat.is_nan (discount_rate before) = true ∨
     PyFloat.is_nan (discount_rate after) = true →
     PyFloat.is_nan (discount_rate new) = true) ∧
    (has_reference_price T = true →
     is_null (reference_price before) = true ∨
     is_null (reference_price after) = true →
     ∃ v, reference_price new = Some v ∧ PyFloat.is_nan v = true) ∧
    (has_forward_ratio T = true →
     is_null (forward_ratio before) = true ∨
     is_null (forward_ratio after) = true →
     ∃ v, forward_ratio new = Some v ∧ PyFloat.is_nan v = true).
Proof.
  intros Hdf Hret.
  apply interpolate_rate_synthesized in Hret as (b & a & Hb & Ha & ->); [|done].
  exists b, a. split; [done|]. split; [done|].
  assert (∀ vb va f : float,
            PyFloat.is_nan vb = true ∨ PyFloat.is_nan va = true →
            PyFloat.is_nan (vb + f * (va - vb)) = true) as Hnan.
  { intros vb va f [H|H]; apply is_nan_add; [by left|right].
    apply is_nan_mul. right. apply is_nan_sub. by left. }
  repeat split.
  - intros H. by apply Hnan.
  - intros Hcol H. cbn. rewrite Hcol. cbn. eexists. split; [reflexivity|].
    apply Hnan. destruct H as [H|H]; [left|right]; by apply is_null_cell.
  - intros Hcol H. cbn. rewrite Hcol. cbn. eexists. split; [reflexivity|].
    apply Hnan. destruct H as [H|H]; [left|right]; by apply is_null_cell.
Qed.

(** X13: in [extrapolate_late], when the table has the [reference_price]
    (or [forward_ratio]) column and one of the two anchors has no value for
    it, the field is written with the value read from the last line: the
    last observed value is carried forward when only the line before it is
    null, and NaN is written when the last line itself is null. *)
Theorem late_null_carries_last_value h df T e d y kw new :
  module_loaded h →
  h !! df = Some (OFrame T) →
  returns (extrapolate_late df e d y kw) h (appended T new) →
  ∃ last second_last,
    two_highest T last second_last ∧
    (has_reference_price T = true →
     is_null (reference_price last) = true ∨
     is_null (reference_price second_last) = true →
     reference_price new = Some (cell (reference_price last))) ∧
    (has_forward_ratio T = true →
     is_null (forward_ratio last) = true ∨
     is_null (forward_ratio second_last) = true →
     forward_ratio new = Some (cell (forward_ratio last))).
Proof.
  intros Hm Hdf Hret.
  apply extrapolate_late_synthesized in Hret as (r1 & r2 & H2 & ->); [|done..].
  exists r1, r2. split; [done|]. split.
  - intros Hcol H. cbn. rewrite Hcol. cbn. f_equal.
    change (PyFloat.max2 (cell (reference_price r1))
              (forward_projection (cell (reference_price r1))
                 (cell (reference_price r2)) (days r1) (days r2) d)
            = cell (reference_price r1)).
    apply max2_nan_r, is_nan_forward.
    destruct H as [H|H]; [left|right]; by apply is_null_cell.
  - intros Hcol H. cbn. rewrite Hcol. cbn. f_equal.
    change (PyFloat.max2 (cell (forward_ratio r1))
              (forward_projection (cell (forward_ratio r1))
                 (cell (forward_ratio r2)) (days r1) (days r2) d)
            = cell (forward_ratio r1)).
    apply max2_nan_r, is_nan_forward.
    destruct H as [H|H]; [left|right]; by apply is_null_cell.
Qed.

Lemma late_rate_clamp_witness :
  (int64_days table_300_365 ∧ Int64.in_range 730 ∧
   ∃ new,
     returns (extrapolate_late the_table 730 730 2%float ∅)
             (heap_with table_300_365) (appended table_300_365 new) ∧
     discount_rate new = 0.2%float) ∧
  (int64_days table_falling_rate ∧ Int64.in_range 60 ∧
   ∃ new,
     returns (extrapolate_late the_table 60 60 0.2%float ∅)
             (heap_with table_falling_rate) (appended table_falling_rate new) ∧
     discount_rate new = 0.0%float).
Proof.
  split.
  - assert (int64_days table_300_365) as Hdays.
    { intros r [->| ->]%elem_of_pair; by vm_compute. }
    assert (Int64.in_range 730) as Hd by by vm_compute.
    split; [exact Hdays|]. split; [exact Hd|].
    destruct late_rate_is_capped as (_ & new & Hret & _).
    destruct (late_rate_clamp (heap_with table_300_365) the_table table_300_365
                730 730 2%float ∅ new eq_refl eq_refl Hdays Hd Hret)
      as (last & prev & Hhigh & _ & _ & Hcap & _).
    exists new. split; [exact Hret|].
    apply two_highest_pair in Hhigh as [-> ->]; [|by vm_compute].
    apply Hcap. by vm_compute.
  - assert (int64_days table_falling_rate) as Hdays.
    { intros r [->| ->]%elem_of_pair; by vm_compute. }
    assert (Int64.in_range 60) as Hd by by vm_compute.
    split; [exact Hdays|]. split; [exact Hd|].
    destruct (extrapolate_late_appends (heap_with table_falling_rate) the_table
                table_falling_rate 60 60 0.2%float ∅ eq_refl eq_refl)
      as (r1 & r2 & _ & Hret); [simpl; lia|by vm_compute|].
    destruct (late_rate_clamp (heap_with table_falling_rate) the_table
                table_falling_rate 60 60 0.2%float ∅ _ eq_refl eq_refl
                Hdays Hd Hret)
      as (last & prev & Hhigh & _ & _ & _ & _ & _ & _ & _ & _ & Hlow).
    eexists. split; [exact Hret|].
    apply two_highest_pair in Hhigh as [-> ->]; [|by vm_compute].
    by apply Hlow.
Defined.

Lemma early_null_becomes_zero_witness :
  ∃ new first second,
    returns (extrapolate_early the_table 5 5 0.01%float ∅)
            (heap_with table_null_rate) (appended table_null_rate new) ∧
    two_lowest table_null_rate first second ∧
    (is_null (reference_price first) = true ∨
     is_null (reference_price second) = true →
     reference_price new = Some 0.0%float).
Proof.
  destruct (extrapolate_early_appends (heap_with table_null_rate) the_table
              table_null_rate 5 5 0.01%float ∅ eq_refl eq_refl)
    as (r1 & r2 & _ & Hret); [simpl; lia|by vm_compute|].
  destruct (early_null_becomes_zero (heap_with table_null_rate) the_table
              table_null_rate 5 5 0.01%float ∅ _ eq_refl eq_refl Hret)
    as (first & second & Hlow & _ & Hprice & _).
  eexists _, first, second. split; [exact Hret|]. split; [exact Hlow|].
  by apply Hprice.
Defined.

Lemma interpolation_propagates_null_witness :
  ∃ new before after,
    returns (interpolate_rate the_table 20 20 0.05%float)
            (heap_with table_null_rate) (appended table_null_rate new) ∧
    closest_before table_null_rate 20 before ∧
    closest_after table_null_rate 20 after ∧
    (PyFloat.is_nan (discount_rate before) = true ∨
     PyFloat.is_nan (discount_rate after) = true →
     PyFloat.is_nan (discount_rate new) = true).
Proof.
  assert (returns (interpolate_rate the_table 20 20 0.05%float)
            (heap_with table_null_rate)
            (appended table_null_rate
               (interpolated_row
                  (series_of table_null_rate
                     (observed 10 0.02 (Some PrimFloat.nan) None))
                  (series_of table_null_rate
                     (observed 30 PrimFloat.nan (Some 100%float) None))
                  20 20 0.05%float))) as Hret.
  { eapply returns_intro; [|apply lookup_appended_result].
    by eapply interpolate_rate_appends. }
  destruct (interpolation_propagates_null (heap_with table_null_rate) the_table
              table_null_rate 20 20 0.05%float _ eq_refl Hret)
    as (before & after & Hb & Ha & Hrate & _).
  by eexists _, before, after.
Defined.

Lemma late_null_carries_last_value_witness :
  ∃ new last second_last,
    returns (extrapolate_late the_table 60 60 0.2%float ∅)
            (heap_with table_null_rate) (appended table_null_rate new) ∧
    two_highest table_null_rate last second_last ∧
    (is_null (reference_price last) = true ∨
     is_null (reference_price second_last) = true →
     reference_price new = Some (cell (reference_price last))).
Proof.
  destruct (extrapolate_late_appends (heap_with table_null_rate) the_table
              table_null_rate 60 60 0.2%float ∅ eq_refl eq_refl)
    as (r1 & r2 & _ & Hret); [simpl; lia|by vm_compute|].
  destruct (late_null_carries_last_value (heap_with table_null_rate) the_table
              table_null_rate 60 60 0.2%float ∅ _ eq_refl eq_refl Hret)
    as (last & prev & Hhigh & Hprice & _).
  eexists _, last, prev. split; [exact Hret|]. split; [exact Hhigh|].
  by apply Hprice.
Defined.

(** The runs behind X11, X12 and X13 on one table: the line at day 10 has a
    null price, the line at day 30 a null rate and the price 100.0. *)
Example null_anchors_runs :
  (∃ new,
     returns (extrapolate_early the_table 5 5 0.01%float ∅)
             (heap_with table_null_rate) (appended table_null_rate new) ∧
     discount_rate new = 0.0%float ∧ reference_price new = Some 0.0%float) ∧
  (∃ new,
     returns (interpolate_rate the_table 20 20 0.05%float)
             (heap_with table_null_rate) (appended table_null_rate new) ∧
     PyFloat.is_nan (discount_rate new) = true ∧
     is_null (reference_price new) = true ∧ is_Some (reference_price new)) ∧
  (∃ new,
     returns (extrapolate_late the_table 60 60 0.2%float ∅)
             (heap_with table_null_rate) (appended table_null_rate new) ∧
     discount_rate new = 0.2%float ∧ reference_price new = Some 100.0%float).
Proof.
  split; [|split]; eexists.
  - split.
    + eapply returns_intro; [|apply lookup_appended_result'].
      rewrite (extrapolate_early_cases _ _ table_null_rate _ _ _ _
                 Config.default_params); reflexivity.
    + by vm_compute.
  - split.
    + eapply returns_intro; [|apply lookup_appended_result].
      by eapply interpolate_rate_appends.
    + split; [by vm_compute|]. split; [by vm_compute|by eexists].
  - split.
    + eapply returns_intro; [|apply lookup_appended_result'].
      rewrite (extrapolate_late_cases _ _ table_null_rate _ _ _ _
                 Config.default_params); reflexivity.
    + by vm_compute.
Qed.

(** ** Extrapolating at the day of an anchor *)

Lemma finite_spec (x : float) :
  is_finite x = true →
  (∃ s, Prim2SF x = S754_zero s) ∨ (∃ s m e, Prim2SF x = S754_finite s m e).
Proof.
  unfold is_finite, Prim2SF.
  destruct (PrimFloat.is_nan x); [done|].
  destruct (is_zero x); [by left; eauto|].
  destruct (PrimFloat.is_infinity x); [done|]. intros _.
  destruct (Z.frexp x) as [r ex].
  destruct (shr_fexp _ _ _ _ _) as [shr e'].
  destruct (shr_m shr); eauto.
Qed.

Lemma positive_finite (v : float) :
  PrimFloat.ltb 0.0 v = true → is_finite v = true →
  ∃ s m e, Prim2SF v = S754_finite s m e.
Proof.
  intros Hpos [[s Hz]|Hf]%finite_spec; [|done].
  rewrite ltb_spec, Hz in Hpos.
  replace (Prim2SF 0.0) with (S754_zero false) in Hpos by by vm_compute.
  done.
Qed.

Lemma zero_times_finite (x : float) :
  is_finite x = true → ∃ s, Prim2SF (PyFloat.of_int 0 * x) = S754_zero s.
Proof.
  intros H. rewrite mul_spec.
  replace (Prim2SF (PyFloat.of_int 0)) with (S754_zero false) by by vm_compute.
  destruct (finite_spec x H) as [[s ->]|(s & m & e & ->)]; cbn; eauto.
Qed.

Lemma sub_signed_zero (v z : float) :
  (∃ s m e, Prim2SF v = S754_finite s m e) → (∃ s, Prim2SF z = S754_zero s) →
  (v - z)%float = v.
Proof.
  intros (s & m & e & Hv) (sz & Hz).
  rewrite <- (SF2Prim_Prim2SF (v - z)), sub_spec, Hv, Hz.
  change (SF64sub (S754_finite s m e) (S754_zero sz)) with (S754_finite s m e).
  by rewrite <- Hv, SF2Prim_Prim2SF.
Qed.

Lemma add_signed_zero (v z : float) :
  (∃ s m e, Prim2SF v = S754_finite s m e) → (∃ s, Prim2SF z = S754_zero s) →
  (v + z)%float = v.
Proof.
  intros (s & m & e & Hv) (sz & Hz).
  rewrite <- (SF2Prim_Prim2SF (v + z)), add_spec, Hv, Hz.
  change (SF64add (S754_finite s m e) (S754_zero sz)) with (S754_finite s m e).
  by rewrite <- Hv, SF2Prim_Prim2SF.
Qed.

Lemma below_cap_finite (v : float) :
  PrimFloat.ltb 0.0 v = true → PrimFloat.ltb v 0.2 = true →
  ∃ s m e, Prim2SF v = S754_finite s m e.
Proof.
  rewrite !ltb_spec.
  replace (Prim2SF 0.0) with (S754_zero false) by by vm_compute.
  replace (Prim2SF 0.2) with (S754_finite false 7205759403792794 (-55))
    by by vm_compute.
  destruct (Prim2SF v) as [[]|[]| |s m e]; try done. eauto.
Qed.

(** X14: extrapolating at the very day of the anchor the projection starts
    from returns that anchor's rate.  For [extrapolate_early] at the day of
    the lowest line: when the slope is finite and the line's rate is finite
    and positive, the rate written is that line's rate.  For
    [extrapolate_late] at the day of the highest line: when the slope is
    finite and the line's rate lies strictly between 0 and 0.2, the rate
    written is that line's rate. *)
Theorem extrapolation_at_anchor_day h df T e d y kw new :
  module_loaded h →
  h !! df = Some (OFrame T) →
  (returns (extrapolate_early df e d y kw) h (appended T new) →
   ∃ first second,
     two_lowest T first second ∧
     (d = days first →
      is_finite ((discount_rate second - discount_rate first)
                 / PyFloat.of_int (days second - days first)) = true →
      is_finite (discount_rate first) = true →
      PrimFloat.ltb 0.0 (discount_rate first) = true →
      discount_rate new = discount_rate first)) ∧
  (returns (extrapolate_late df e d y kw) h (appended T new) →
   ∃ last second_last,
     two_highest T last second_last ∧
     (d = days last →
      is_finite ((discount_rate last - discount_rate second_last)
                 / PyFloat.of_int (days last - days second_last)) = true →
      PrimFloat.ltb 0.0 (discount_rate last) = true →
      PrimFloat.ltb (discount_rate last) 0.2 = true →
      discount_rate new = discount_rate last)).
Proof.
  intros Hm Hdf. split; intros Hret.
  - apply extrapolate_early_synthesized in Hret as (r1 & r2 & H2 & ->); [|done..].
    exists r1, r2. split; [done|]. intros -> Hslope Hfin Hpos.
    change (discount_rate (early_row (series_of T r1) (series_of T r2) e (days r1) y))
      with (PyFloat.max2 0.0
              (discount_rate r1
               - PyFloat.of_int (Int64.sub (days r1) (days r1))
                 * ((discount_rate r2 - discount_rate r1)
                    / PyFloat.of_int (Int64.sub (days r2) (days r1))))%float).
    rewrite Int64_sub_diag, of_int_sub.
    rewrite sub_signed_zero;
      [by apply max2_above|by apply positive_finite|by apply zero_times_finite].
  - apply extrapolate_late_synthesized in Hret as (r1 & r2 & H2 & ->); [|done..].
    exists r1, r2. split; [done|]. intros -> Hslope Hpos Hcap.
    change (discount_rate (late_row (series_of T r1) (series_of T r2) e (days r1) y))
      with (PyFloat.max2 0.0 (PyFloat.min2 0.2
              (discount_rate r1
               + PyFloat.of_int (Int64.sub (days r1) (days r1))
                 * ((discount_rate r1 - discount_rate r2)
                    / PyFloat.of_int (Int64.sub (days r1) (days r2))))%float)).
    rewrite Int64_sub_diag, of_int_sub.
    rewrite add_signed_zero;
      [|by apply below_cap_finite|by apply zero_times_finite].
    unfold PyFloat.min2. rewrite Hcap. by apply max2_above.
Qed.

Lemma extrapolation_at_anchor_day_witness :
  ∃ new first second,
    returns (extrapolate_early the_table 10 10 0.03%float ∅)
            (heap_with table_10_30) (appended table_10_30 new) ∧
    two_lowest table_10_30 first second ∧
    (10 = days first →
     is_finite ((discount_rate second - discount_rate first)
                / PyFloat.of_int (days second - days first)) = true →
     is_finite (discount_rate first) = true →
     PrimFloat.ltb 0.0 (discount_rate first) = true →
     discount_rate new = discount_rate first).
Proof.
  destruct (extrapolate_early_appends (heap_with table_10_30) the_table
              table_10_30 10 10 0.03%float ∅ eq_refl eq_refl)
    as (r1 & r2 & _ & Hret); [simpl; lia|by vm_compute|].
  destruct (proj1 (extrapolation_at_anchor_day (heap_with table_10_30) the_table
              table_10_30 10 10 0.03%float ∅ _ eq_refl eq_refl) Hret)
    as (first & second & Hlow & Hanchor).
  by eexists _, first, second.
Defined.

(** The run behind X14: extrapolating the table (10, 0.02), (30, 0.04) at
    day 10 and at day 30 gives back 0.02 and 0.04. *)
Example anchors_are_reproduced :
  (λ rs : list Row, discount_rate <$> rs)
    <$> returned_rows (run_fills [FillEarly 10 10 0.03%float ∅;
                                  FillLate 30 30 0.08%float ∅] the_table)
          (heap_with table_10_30)
  = Some [0.02; 0.04; 0.02; 0.04]%float.
Proof. by vm_compute. Qed.
